(** * Preditor de Nível de Obesidade ([app.py])

    A shallow embedding of the Streamlit script [app.py] and the proofs of
    the properties its specification states.

    Conventions of the embedding.
    - In the script as a whole a Python [float] is a rational number ([Q]):
      arithmetic and comparison are exact, rounding and the non-finite
      values of IEEE binary64 are left out.  The two functions of lines
      56-73 are also given on the machine's floats.  For the classifier
      nothing is lost: its five thresholds are binary64 values, and
      [classify_bmi_binary64_exact] proves that the classifier over floats
      agrees with the one over [Q] on every finite float.  For the bmi the
      two differ at the ends of the range: [calculate_bmi_binary64] follows
      what CPython does for [**] and [/], and raises where the square of the
      height underflows or overflows.
    - A Python [int] is an integer ([Z]); [str] is [string] (the UTF-8 bytes
      of the source literal).
    - A raised exception is the [Raise] case of [result]; [exn] lists the
      subclasses of Python's [Exception] the script can meet.
    - A [dict] used as a lookup table is a [gmap]; the one-row
      [pandas.DataFrame], where column order matters, is an association list.
    - What the script shows (Streamlit calls) and what it asks of the loaded
      model is recorded, in order, as a list of [event]s.  The model, the
      label encoder, the column order and the vocabularies come from pickle
      files that are not part of the source: they are parameters. *)

From Stdlib Require Import ZArith QArith Qround Qpower Lqa Lia Floats.
From stdpp Require Import gmap strings list sorting.

Local Open Scope Q_scope.

(** ** Exceptions and results *)

Inductive exn : Type :=
| ZeroDivisionError
| OverflowError (msg : string)
| KeyError (not_found : list string)
| ValueError (msg : string)
| OtherException (class_name msg : string).

Inductive result (A : Type) : Type :=
| Ok (a : A)
| Raise (e : exn).

Arguments Ok {A} a.
Arguments Raise {A} e.

#[global] Instance result_ret : MRet result := λ A a, Ok a.

#[global] Instance result_bind : MBind result := λ A B f r,
  match r with
  | Ok a => f a
  | Raise e => Raise e
  end.

Definition raised {A} (r : result A) : Prop :=
  match r with
  | Ok _ => False
  | Raise _ => True
  end.

(** ** Derived-feature calculator (lines 56-73) *)

(** [weight / (height ** 2)] in exact arithmetic: Python raises
    [ZeroDivisionError] when the divisor is zero. *)
Definition calculate_bmi (weight height : Q) : result Q :=
  let divisor := height ^ 2 in
  if Qeq_bool divisor 0 then Raise ZeroDivisionError
  else Ok (weight / divisor).

(** *** The same line on the machine's floats

    [height ** 2] is CPython's [float_pow] (Objects/floatobject.c) with the
    exponent 2.0: the special values are answered without the C library;
    any other base is made positive and handed to C's [pow], and [errno]
    decides whether the result is returned.  [weight / divisor] is CPython's
    [float_div]: a divisor equal to zero raises, any other gives the IEEE
    quotient. *)

(** What [errno] holds after a call of the C library: nothing, a range
    error or a domain error. *)
Inductive errno : Type := ENone | ERANGE | EDOM.

(** [_Py_ADJUST_ERANGE1]: an infinite result is a range error whatever the
    library said, and a range error with a zero result is none. *)
Definition adjust_erange (ix : float) (err : errno) : errno :=
  match err with
  | ENone => if is_infinity ix then ERANGE else ENone
  | ERANGE => if (ix =? 0)%float then ENone else ERANGE
  | EDOM => EDOM
  end.

Section binary64.

(** C's [pow(x, 2.0)], called on a finite [x > 0] other than 1: the value
    and the [errno] it leaves.  The C library is not part of the source. *)
Variable libm_pow : float → float * errno.

Definition float_pow2 (iv : float) : result float :=
  if is_nan iv then Ok iv
  else if is_infinity iv then Ok (abs iv)
  else if (iv =? 0)%float then Ok 0%float
  else
    let iv := if (iv <? 0)%float then (- iv)%float else iv in
    if (iv =? 1)%float then Ok 1%float
    else
      let '(ix, err) := libm_pow iv in
      match adjust_erange ix err with
      | ENone => Ok ix
      | ERANGE => Raise (OverflowError "(34, 'Numerical result out of range')")
      | EDOM => Raise (ValueError "(33, 'Numerical argument out of domain')")
      end.

Definition float_div (a b : float) : result float :=
  if (b =? 0)%float then Raise ZeroDivisionError else Ok (a / b)%float.

Definition calculate_bmi_binary64 (weight height : float) : result float :=
  divisor ← float_pow2 height;
  float_div weight divisor.

End binary64.

(** A C library whose [pow(x, 2.0)] is the correctly rounded square, with
    [ERANGE] when the result overflows or underflows to zero. *)
Definition rounded_pow (x : float) : float * errno :=
  let ix := (x * x)%float in
  (ix, if is_infinity ix || (ix =? 0)%float then ERANGE else ENone).

Definition classify_bmi (bmi : Q) : string :=
  if Qlt_le_dec bmi 18.5 then "Baixo peso"
  else if Qlt_le_dec bmi 25 then "Peso normal"
  else if Qlt_le_dec bmi 30 then "Sobrepeso Nível I"
  else if Qlt_le_dec bmi 35 then "Obesidade Tipo I"
  else if Qlt_le_dec bmi 40 then "Obesidade Tipo II"
  else "Obesidade Tipo III".

(** The same lines over the machine's floats: [bmi] and the five literals
    are IEEE binary64 values and [<] is the IEEE comparison. *)
Definition classify_bmi_binary64 (bmi : float) : string :=
  if (bmi <? 18.5)%float then "Baixo peso"
  else if (bmi <? 25)%float then "Peso normal"
  else if (bmi <? 30)%float then "Sobrepeso Nível I"
  else if (bmi <? 35)%float then "Obesidade Tipo I"
  else if (bmi <? 40)%float then "Obesidade Tipo II"
  else "Obesidade Tipo III".

(** The rational a binary64 value denotes; infinities and NaN denote none. *)
Definition binary64_value (x : spec_float) : option Q :=
  match x with
  | S754_zero _ => Some 0
  | S754_finite s m e =>
      Some ((if s then -1 else 1) * inject_Z (Z.pos m) * 2 ^ e)
  | S754_infinity _ | S754_nan => None
  end.

(** The specification's reading of the classifier: six buckets, each a
    half-open interval [lower <= bmi < upper]; [None] is an absent bound. *)
Record bucket : Type := Bucket {
  lower : option Q;
  upper : option Q;
  category : string
}.

Definition bmi_buckets : list bucket :=
  [ Bucket None (Some 18.5) "Baixo peso";
    Bucket (Some 18.5) (Some 25) "Peso normal";
    Bucket (Some 25) (Some 30) "Sobrepeso Nível I";
    Bucket (Some 30) (Some 35) "Obesidade Tipo I";
    Bucket (Some 35) (Some 40) "Obesidade Tipo II";
    Bucket (Some 40) None "Obesidade Tipo III" ].

Definition in_bucket (bmi : Q) (b : bucket) : Prop :=
  match lower b with Some lo => lo <= bmi | None => True end ∧
  match upper b with Some hi => bmi < hi | None => True end.

(** ** Label tables (lines 46-53, 146-155, 190-229) *)

Definition obesity_labels : gmap Z string :=
  list_to_map
    [ (0%Z, "Insufficient_Weight");
      (1%Z, "Normal_Weight");
      (2%Z, "Overweight_Level_I");
      (3%Z, "Obesity_Type_I");
      (4%Z, "Obesity_Type_II");
      (5%Z, "Obesity_Type_III") ].

Definition label_translation_items : list (string * string) :=
  [ ("Insufficient_Weight", "Baixo Peso");
    ("Normal_Weight", "Peso Normal");
    ("Overweight_Level_I", "Sobrepeso Nível I");
    ("Obesity_Type_I", "Obesidade Tipo I");
    ("Obesity_Type_II", "Obesidade Tipo II");
    ("Obesity_Type_III", "Obesidade Tipo III") ].

Definition label_translation : gmap string string :=
  list_to_map label_translation_items.

(** [label_translation.get(label, label)] *)
Definition translate (label : string) : string :=
  default label (label_translation !! label).

Definition recommendations_items : list (string * string) :=
  [ ("Baixo Peso", "
            - Aumentar consumo calórico de forma saudável
            - Incluir proteínas magras e carboidratos complexos
            - Consultar nutricionista para plano alimentar
            - Exercícios de força para ganho muscular
            ");
    ("Peso Normal", "
            - Manter hábitos alimentares saudáveis
            - Continuar com atividade física regular
            - Monitorar peso mensalmente
            - Manter hidratação adequada
            ");
    ("Sobrepeso Nível I", "
            - Reduzir calorias em 200-300 por dia
            - Aumentar atividade física para 150 min/semana
            - Reduzir alimentos processados e açúcares
            - Acompanhar ingestão alimentar
            ");
    ("Obesidade Tipo I", "
            - Consultar médico e nutricionista
            - Redução calórica supervisionada
            - Exercícios aeróbicos 30 min/dia, 5x/semana
            - Monitorar progresso semanalmente
            ");
    ("Obesidade Tipo II", "
            - Acompanhamento médico obrigatório
            - Plano alimentar personalizado
            - Atividade física supervisionada
            - Considerar acompanhamento psicológico
            ");
    ("Obesidade Tipo III", "
            - Intervenção médica imediata
            - Tratamento multidisciplinar
            - Possível indicação cirúrgica
            - Acompanhamento intensivo
            ") ].

Definition recommendations : gmap string string :=
  list_to_map recommendations_items.

Definition fallback_recommendation : string :=
  "Consulte um profissional de saúde.".

(** [recommendations.get(translated_label, "Consulte um profissional de saúde.")] *)
Definition recommend (translated_label : string) : string :=
  default fallback_recommendation (recommendations !! translated_label).

(** The keys of the two tables, in the order the source writes them. *)
Definition english_labels : list string := label_translation_items.*1.

Definition localized_labels : list string := recommendations_items.*1.

(** ** The one-row data frame (lines 116-136) *)

(** A cell of the frame: a [float64] value or a Python string. *)
Inductive cell : Type :=
| CFloat (q : Q)
| CStr (s : string).

(** One row: the columns in order, each with its cell. *)
Definition DataFrame : Type := list (string * cell).

Definition columns (df : DataFrame) : list string := df.*1.

(** The cell of the first column named [c]. *)
Fixpoint get_cell (c : string) (df : DataFrame) : option cell :=
  match df with
  | [] => None
  | (c', v) :: rest => if decide (c' = c) then Some v else get_cell c rest
  end.

(** The values the sixteen form controls hold when the script runs. *)
Record RawInputs : Type := {
  age : Z;
  height : Q;
  weight : Q;
  gender : string;
  family_history : string;
  favc : string;
  fvc : Q;
  ncp : Q;
  caec : string;
  smoke : string;
  ch2o : Q;
  scc : string;
  faf : Q;
  tue : Q;
  calc : string;
  mtrans : string
}.

(** [float(x)] on an [int]. *)
Definition float_of_int (x : Z) : Q := inject_Z x.

(** [pd.DataFrame([{...}])]: the columns are the keys of the dict literal,
    in the order written.  [float(x)] on a value that is a float already
    (the four sliders, [fvc] to [tue]) returns it. *)
Definition patient_record (inp : RawInputs) : DataFrame :=
  [ ("Gender", CStr (gender inp));
    ("Age", CFloat (float_of_int (age inp)));
    ("Height", CFloat (height inp));
    ("Weight", CFloat (weight inp));
    ("family_history", CStr (family_history inp));
    ("FAVC", CStr (favc inp));
    ("FCVC", CFloat (fvc inp));
    ("NCP", CFloat (ncp inp));
    ("CAEC", CStr (caec inp));
    ("SMOKE", CStr (smoke inp));
    ("CH2O", CFloat (ch2o inp));
    ("SCC", CStr (scc inp));
    ("FAF", CFloat (faf inp));
    ("TUE", CFloat (tue inp));
    ("CALC", CStr (calc inp));
    ("MTRANS", CStr (mtrans inp)) ].

Definition field_names : list string :=
  [ "Gender"; "Age"; "Height"; "Weight"; "family_history"; "FAVC"; "FCVC";
    "NCP"; "CAEC"; "SMOKE"; "CH2O"; "SCC"; "FAF"; "TUE"; "CALC"; "MTRANS" ].

Definition numeric_fields : list string :=
  [ "Age"; "Height"; "Weight"; "FCVC"; "NCP"; "CH2O"; "FAF"; "TUE" ].

(** The columns of [df] named [c], in the order [df] has them. *)
Definition columns_named (c : string) (df : DataFrame) : DataFrame :=
  filter (B := list _) (λ col, col.1 = c) df.

(** [Index.unique()]: each label once, in the order of first occurrence. *)
Definition unique (labels : list string) : list string :=
  foldl (λ seen c, if decide (c ∈ seen) then seen else seen ++ [c]) [] labels.

(** [df[cols]] with a list of labels: for each label of [cols] in turn,
    every column of [df] with that name.  A label that is no column of [df]
    is a [KeyError]; its message lists the requested labels when none of
    them is a column, and otherwise the missing ones, each once. *)
Definition select_columns (df : DataFrame) (cols : list string) : result DataFrame :=
  let missing := filter (λ c, c ∉ columns df) cols in
  if decide (missing = []) then Ok (cols ≫= λ c, columns_named c df)
  else if decide (length missing = length cols) then Raise (KeyError cols)
  else Raise (KeyError (unique missing)).

(** ** The artifact store (lines 23-40) *)

(** The loaded model: [predict(df)[0]] and [predict_proba(df)[0]]. *)
Record Model : Type := {
  predict : DataFrame → result Z;
  predict_proba : DataFrame → result (list Q)
}.

(** The label encoder: [inverse_transform([i])[0]] and [classes_]. *)
Record LabelEncoder : Type := {
  inverse_transform : Z → result string;
  classes_ : list string
}.

Definition Artifacts : Type :=
  (Model * LabelEncoder * list string * gmap string (list string))%type.

(** What [joblib.load] gives for each of the four files: the object, or the
    exception it raises. *)
Record ArtifactStore : Type := {
  modelo_obesidade_pkl : result Model;
  label_encoder_pkl : result LabelEncoder;
  expected_columns_pkl : result (list string);
  categories_pkl : result (gmap string (list string))
}.

(** ** What a run of the script does, in order *)

Inductive text_kind : Type :=
| Title | Markdown | Caption | Subheader | Success | Info
| SidebarHeader | SidebarMarkdown | SidebarInfo.

(** The value of an [st.metric]: text, or a number under a format. *)
Inductive metric_value : Type :=
| MText (s : string)
| MFixed2 (q : Q)      (* f"{q:.2f}" *)
| MPercent1 (q : Q).   (* f"{q:.1f}%" *)

(** A control of the form, with the label the script gives it. *)
Inductive widget : Type :=
| NumberInput (label : string)
| Slider (label : string)
| SelectBox (label : string) (options : list string).

Inductive event : Type :=
| StText (kind : text_kind) (text : string)
| StError (prefix : string) (e : exn)      (* st.error(f"{prefix}{e}") *)
| StForm (caec_options calc_options : list string)
| StFormInterrupted (rendered : list widget)
| StMetric (label : string) (value : metric_value)
| StBarChart (rows : list (string * Q))
| StDownload (label : string) (data : DataFrame) (file_name : string)
| StStop
| Uncaught (e : exn)
| CallPredict (df : DataFrame)
| CallPredictProba (df : DataFrame)
| CallInverseTransform (prediction : Z).

Definition is_model_call (ev : event) : bool :=
  match ev with
  | CallPredict _ | CallPredictProba _ | CallInverseTransform _ => true
  | _ => false
  end.

Definition is_predict (ev : event) : bool :=
  match ev with CallPredict _ => true | _ => false end.

Definition is_predict_proba (ev : event) : bool :=
  match ev with CallPredictProba _ => true | _ => false end.

Definition is_inverse_transform (ev : event) : bool :=
  match ev with CallInverseTransform _ => true | _ => false end.

Definition is_form (ev : event) : bool :=
  match ev with StForm _ _ => true | _ => false end.

Definition is_error (ev : event) : bool :=
  match ev with StError _ _ => true | _ => false end.

Definition is_uncaught (ev : event) : bool :=
  match ev with Uncaught _ => true | _ => false end.

(** A computation inside the [try] block: the events so far, and how it
    ended. *)
Definition Comp (A : Type) : Type := (list event * result A)%type.

#[global] Instance comp_ret : MRet Comp := λ A a, ([], Ok a).

#[global] Instance comp_bind : MBind Comp := λ A B f m,
  match m with
  | (t, Ok a) => let '(t', r) := f a in (t ++ t', r)
  | (t, Raise e) => (t, Raise e)
  end.

Definition emit (ev : event) : Comp unit := ([ev], Ok tt).

(** A step that shows nothing. *)
Definition pure_step {A} (r : result A) : Comp A := ([], r).

(** A call into a loaded artifact, recorded before its outcome. *)
Definition call {A} (ev : event) (r : result A) : Comp A := ([ev], r).

(** [try: body / except Exception as e: handler(e)] *)
Definition try_except (body : Comp unit) (handler : exn → list event) : list event :=
  match body with
  | (t, Ok _) => t
  | (t, Raise e) => t ++ handler e
  end.

(** ** Numpy and pandas helpers of the result display (lines 171, 180-183) *)

(** [np.max] of a one-dimensional array; it raises on an empty one. *)
Definition np_max (xs : list Q) : result Q :=
  match xs with
  | [] => Raise (ValueError "zero-size array to reduction operation maximum which has no identity")
  | x :: rest => Ok (foldl (λ a b, if Qlt_le_dec a b then b else a) x rest)
  end.

(** Round to the nearest integer, a tie to the even one. *)
Definition rint (q : Q) : Z :=
  let f := Qfloor q in
  let r := q - inject_Z f in
  if Qlt_le_dec r (1 # 2) then f
  else if Qlt_le_dec (1 # 2) r then (f + 1)%Z
  else if Z.even f then f else (f + 1)%Z.

(** [x.round(1)]: numpy multiplies by 10, rounds to the nearest integer
    and divides by 10.  Here the three steps are exact; in binary64 a value
    next to a tie can go to the other tenth. *)
Definition round1 (q : Q) : Q := inject_Z (rint (q * 10)) / 10.

(** A row goes before the first row whose percentage is not greater. *)
Fixpoint insert_row (r : string * Q) (rows : list (string * Q)) : list (string * Q) :=
  match rows with
  | [] => [r]
  | r' :: rest =>
      if Qlt_le_dec r.2 r'.2 then r' :: insert_row r rest else r :: r' :: rest
  end.

(** [.sort_values("Probabilidade (%)", ascending=False)]: the rows by
    falling percentage.  Rows with the same percentage are left in the order
    they had, as the insertion sort numpy uses on short arrays leaves them;
    pandas does not promise that order. *)
Definition sort_values (rows : list (string * Q)) : list (string * Q) :=
  foldr insert_row [] rows.

(** [pd.DataFrame({"Categoria": ..., "Probabilidade (%)": ...})]: the two
    columns must have the same length; the frame is then sorted. *)
Definition prob_df (categoria : list string) (probabilidade : list Q)
    : result (list (string * Q)) :=
  if decide (length categoria = length probabilidade)
  then Ok (sort_values (zip categoria probabilidade))
  else Raise (ValueError "All arrays must be of the same length").

(** ** The prediction cycle (lines 109-241) *)

Definition processing_error (e : exn) : list event :=
  [ StError "❌ Erro ao processar predição: " e;
    StText Info "Verifique se todos os campos foram preenchidos corretamente." ].

Section prediction.

Variable model : Model.
Variable label_encoder : LabelEncoder.
Variable expected_columns : list string.

(** The body of the [try] block. *)
Definition prediction_cycle (inp : RawInputs) : Comp unit :=
  bmi ← pure_step (calculate_bmi (weight inp) (height inp));
  let bmi_category := classify_bmi bmi in
  input_data ← pure_step (select_columns (patient_record inp) expected_columns);
  prediction ← call (CallPredict input_data) (predict model input_data);
  prediction_proba ← call (CallPredictProba input_data) (predict_proba model input_data);
  prediction_label ← call (CallInverseTransform prediction)
                          (inverse_transform label_encoder prediction);
  let translated_label := translate prediction_label in
  emit (StText Success "✅ Predição concluída!");;
  emit (StMetric "BMI Calculado" (MFixed2 bmi));;
  emit (StMetric "Categoria BMI" (MText bmi_category));;
  max_prob ← pure_step (np_max prediction_proba);
  emit (StMetric "Confiança da Predição" (MPercent1 (max_prob * 100)));;
  emit (StText Subheader ("📋 Nível de Obesidade Previsto: **" +:+ translated_label +:+ "**"));;
  emit (StText Subheader "📊 Probabilidades por Categoria");;
  rows ← pure_step (prob_df (translate <$> classes_ label_encoder)
                            ((λ p, round1 (p * 100)) <$> prediction_proba));
  emit (StBarChart rows);;
  emit (StText Subheader "💡 Recomendações");;
  emit (StText Info (recommend translated_label));;
  emit (StDownload "📥 Baixar Relatório" input_data "dados_paciente.csv").

(** [if submitted: try: ... except Exception as e: ...] *)
Definition on_submit (inp : RawInputs) : list event :=
  try_except (prediction_cycle inp) processing_error.

(** The places where the body of the [try] block can raise: each stage
    is reached only when the stages before it returned. *)
Inductive cycle_raises (inp : RawInputs) (e : exn) : Prop :=
| raises_in_calculate_bmi :
    calculate_bmi (weight inp) (height inp) = Raise e →
    cycle_raises inp e
| raises_in_assembly bmi :
    calculate_bmi (weight inp) (height inp) = Ok bmi →
    select_columns (patient_record inp) expected_columns = Raise e →
    cycle_raises inp e
| raises_in_predict bmi input_data :
    calculate_bmi (weight inp) (height inp) = Ok bmi →
    select_columns (patient_record inp) expected_columns = Ok input_data →
    predict model input_data = Raise e →
    cycle_raises inp e
| raises_in_predict_proba bmi input_data prediction :
    calculate_bmi (weight inp) (height inp) = Ok bmi →
    select_columns (patient_record inp) expected_columns = Ok input_data →
    predict model input_data = Ok prediction →
    predict_proba model input_data = Raise e →
    cycle_raises inp e
| raises_in_inverse_transform bmi input_data prediction prediction_proba :
    calculate_bmi (weight inp) (height inp) = Ok bmi →
    select_columns (patient_record inp) expected_columns = Ok input_data →
    predict model input_data = Ok prediction →
    predict_proba model input_data = Ok prediction_proba →
    inverse_transform label_encoder prediction = Raise e →
    cycle_raises inp e
| raises_in_display bmi input_data prediction prediction_proba prediction_label :
    calculate_bmi (weight inp) (height inp) = Ok bmi →
    select_columns (patient_record inp) expected_columns = Ok input_data →
    predict model input_data = Ok prediction →
    predict_proba model input_data = Ok prediction_proba →
    inverse_transform label_encoder prediction = Ok prediction_label →
    (np_max prediction_proba = Raise e ∨
     (¬ raised (np_max prediction_proba) ∧
      prob_df (translate <$> classes_ label_encoder)
              ((λ p, round1 (p * 100)) <$> prediction_proba) = Raise e)) →
    cycle_raises inp e.

End prediction.

(** What the body has recorded when the three calls have returned. *)
Definition calls_made (input_data : DataFrame) (prediction : Z) : list event :=
  [ CallPredict input_data; CallPredictProba input_data;
    CallInverseTransform prediction ].

(** What the body shows once the three calls have returned and the display
    raises nothing (lines 158-237). *)
Definition result_display (bmi : Q) (input_data : DataFrame) (max_prob : Q)
    (translated_label : string) (rows : list (string * Q)) : list event :=
  [ StText Success "✅ Predição concluída!";
    StMetric "BMI Calculado" (MFixed2 bmi);
    StMetric "Categoria BMI" (MText (classify_bmi bmi));
    StMetric "Confiança da Predição" (MPercent1 (max_prob * 100));
    StText Subheader ("📋 Nível de Obesidade Previsto: **" +:+ translated_label +:+ "**");
    StText Subheader "📊 Probabilidades por Categoria";
    StBarChart rows;
    StText Subheader "💡 Recomendações";
    StText Info (recommend translated_label);
    StDownload "📥 Baixar Relatório" input_data "dados_paciente.csv" ].

Definition is_download (ev : event) : bool :=
  match ev with StDownload _ _ _ => true | _ => false end.

(** How many events of a kind a run recorded. *)
Definition count_events (kind : event → bool) (shown : list event) : nat :=
  length (List.filter kind shown).

(** ** The script, run once per interaction *)

(** Lines 24-34.  The four loads share one [try]: the function returns the
    four objects or, after showing the error, four [None]s.  [Some] of the
    4-tuple and [None] stand for these two returns, which the script's test
    [model is None] (line 39) tells apart. *)
Definition load_artifacts (store : ArtifactStore) : option Artifacts * list event :=
  match
    model ← modelo_obesidade_pkl store;
    label_encoder ← label_encoder_pkl store;
    expected_columns ← expected_columns_pkl store;
    categories ← categories_pkl store;
    mret (model, label_encoder, expected_columns, categories)
  with
  | Ok loaded => (Some loaded, [])
  | Raise e => (None, [StError "Erro ao carregar arquivos: " e])
  end.

(** [@st.cache_resource]: the first call runs the function and keeps what
    it returned and showed; a later call returns and shows the same. *)
Definition Cache : Type := option (option Artifacts * list event).

Definition cached_load_artifacts (store : ArtifactStore) (cache : Cache)
    : (option Artifacts * list event) * Cache :=
  match cache with
  | Some kept => (kept, cache)
  | None => let fresh := load_artifacts store in (fresh, Some fresh)
  end.

(** The body of [with st.form("patient_form")] (lines 77-104): the
    controls in the order the script creates them.  Two option lists are
    read from [categories], each when its select box is reached; a missing
    key is a [KeyError] that leaves the block, with the controls created so
    far already in the form. *)
Definition patient_form (categories : gmap string (list string))
    : list widget * result (list string * list string) :=
  let before_caec :=
    [ NumberInput "Idade";
      NumberInput "Altura (m)";
      NumberInput "Peso (kg)";
      SelectBox "Gênero" [ "Male"; "Female" ];
      SelectBox "Histórico familiar de obesidade" [ "yes"; "no" ];
      SelectBox "Consumo frequente de alimentos calóricos" [ "yes"; "no" ];
      Slider "Frequência de consumo de vegetais (1-3)";
      Slider "Número de refeições principais (1-4)" ] in
  match categories !! "CAEC" with
  | None => (before_caec, Raise (KeyError [ "CAEC" ]))
  | Some caec_options =>
      let before_calc :=
        before_caec ++
        [ SelectBox "Consumo de alimentos entre refeições" caec_options;
          SelectBox "Fuma?" [ "yes"; "no" ];
          Slider "Consumo diário de água (L)";
          SelectBox "Monitora calorias consumidas?" [ "yes"; "no" ];
          Slider "Frequência de atividade física (0-3)";
          Slider "Tempo usando dispositivos eletrônicos (0-2)" ] in
      match categories !! "CALC" with
      | None => (before_calc, Raise (KeyError [ "CALC" ]))
      | Some calc_options =>
          (before_calc ++
           [ SelectBox "Consumo de álcool" calc_options;
             SelectBox "Meio de transporte principal"
               [ "Automobile"; "Bike"; "Motorbike"; "Public_Transportation";
                 "Walking" ] ],
           Ok (caec_options, calc_options))
      end
  end.

(** The form (lines 76-106).  Completed, with its submit button, it is one
    [StForm] with the two option lists it read; a [KeyError] of the body is
    raised outside any [try]. *)
Definition render_form (categories : gmap string (list string)) : result event :=
  match patient_form categories with
  | (_, Ok (caec_options, calc_options)) => Ok (StForm caec_options calc_options)
  | (_, Raise e) => Raise e
  end.

Record Interaction : Type := {
  widgets : RawInputs;
  submitted : bool
}.

(** What the form's controls allow (lines 80-104): the bounds of the
    numeric inputs and the option lists of the select boxes. *)
Definition form_values (categories : gmap string (list string)) (inp : RawInputs) : Prop :=
  (14 ≤ age inp ≤ 100)%Z ∧
  1.0 <= height inp ∧ height inp <= 2.5 ∧
  30.0 <= weight inp ∧ weight inp <= 300.0 ∧
  gender inp ∈ [ "Male"; "Female" ] ∧
  family_history inp ∈ [ "yes"; "no" ] ∧
  favc inp ∈ [ "yes"; "no" ] ∧
  1.0 <= fvc inp ∧ fvc inp <= 3.0 ∧
  1.0 <= ncp inp ∧ ncp inp <= 4.0 ∧
  caec inp ∈ default [] (categories !! "CAEC") ∧
  smoke inp ∈ [ "yes"; "no" ] ∧
  0.5 <= ch2o inp ∧ ch2o inp <= 3.0 ∧
  scc inp ∈ [ "yes"; "no" ] ∧
  0.0 <= faf inp ∧ faf inp <= 3.0 ∧
  0.0 <= tue inp ∧ tue inp <= 2.0 ∧
  calc inp ∈ default [] (categories !! "CALC") ∧
  mtrans inp ∈ [ "Automobile"; "Bike"; "Motorbike"; "Public_Transportation"; "Walking" ].

(** [st.set_page_config] shows nothing; the page starts with the title. *)
Definition page_head : list event :=
  [ StText Title "🏥 Preditor de Nível de Obesidade";
    StText Markdown "
Esta aplicação utiliza machine learning para prever o nível de obesidade com base em características físicas e hábitos.
" ].

Definition page_foot : list event :=
  [ StText SidebarMarkdown "---";
    StText SidebarInfo "
**Sobre o Modelo:**
- Treinado com múltiplos algoritmos de ML
- Validação cruzada de 5 folds
- Precisão: ~90% nos dados de teste

**Classificações BMI:**
- < 18.5: Baixo peso
- 18.5-25: Normal
- 25-30: Sobrepeso I
- 30-35: Obesidade I
- 35-40: Obesidade II
- > 40: Obesidade III
";
    StText Markdown "---";
    StText Caption "⚠️ Esta ferramenta é para fins educacionais. Consulte um profissional de saúde para diagnóstico médico." ].

(** One run of [app.py], top to bottom. *)
Definition run_script (store : ArtifactStore) (cache : Cache) (ix : Interaction)
    : list event * Cache :=
  let '((loaded, shown), cache') := cached_load_artifacts store cache in
  match loaded with
  | None => (page_head ++ shown ++ [StStop], cache')   (* st.stop() *)
  | Some (model, label_encoder, expected_columns, categories) =>
      let sidebar := [StText SidebarHeader "📊 Informações do Paciente"] in
      match render_form categories with
      | Raise e =>
          (page_head ++ shown ++ sidebar
             ++ [StFormInterrupted (patient_form categories).1; Uncaught e],
           cache')
      | Ok form =>
          (page_head ++ shown ++ sidebar ++ [form]
             ++ (if submitted ix
                 then on_submit model label_encoder expected_columns (widgets ix)
                 else [])
             ++ page_foot,
           cache')
      end
  end.

(** A session: the script runs once per interaction, the cache carried
    from one run to the next. *)
Fixpoint run_session (store : ArtifactStore) (cache : Cache) (ixs : list Interaction)
    : list (list event) :=
  match ixs with
  | [] => []
  | ix :: rest =>
      let '(shown, cache') := run_script store cache ix in
      shown :: run_session store cache' rest
  end.

(** ** Sample artifacts and inputs, for evaluating the script *)

(** The form's default values (lines 80-104), with the first option of each
    select box. *)
Definition default_inputs : RawInputs :=
  {| age := 30; height := 1.70; weight := 70.0; gender := "Male";
     family_history := "yes"; favc := "yes"; fvc := 2.0; ncp := 3.0;
     caec := "Always"; smoke := "yes"; ch2o := 1.5; scc := "yes";
     faf := 1.0; tue := 1.0; calc := "Always"; mtrans := "Automobile" |}.

Definition sample_categories : gmap string (list string) :=
  list_to_map
    [ ("CAEC", ["Always"; "Frequently"; "Sometimes"; "no"]);
      ("CALC", ["Always"; "Frequently"; "Sometimes"; "no"]) ].

(** A model that answers class 1 with certainty, whatever the row. *)
Definition sample_model : Model :=
  {| predict := λ _, Ok 1%Z;
     predict_proba := λ _, Ok [0; 1; 0; 0; 0; 0] |}.

Definition sample_encoder : LabelEncoder :=
  {| inverse_transform := λ i,
       match obesity_labels !! i with
       | Some l => Ok l
       | None => Raise (ValueError "y contains previously unseen labels")
       end;
     classes_ := english_labels |}.

(** A model whose [predict] rejects every row. *)
Definition failing_model : Model :=
  {| predict := λ _, Raise (OtherException "ValueError" "malformed input");
     predict_proba := λ _, Ok [0; 1; 0; 0; 0; 0] |}.

(** The defaults, with a value for CAEC that [sample_categories] lacks. *)
Definition out_of_vocabulary_inputs : RawInputs :=
  {| age := 30; height := 1.70; weight := 70.0; gender := "Male";
     family_history := "yes"; favc := "yes"; fvc := 2.0; ncp := 3.0;
     caec := "Never"; smoke := "yes"; ch2o := 1.5; scc := "yes";
     faf := 1.0; tue := 1.0; calc := "Always"; mtrans := "Automobile" |}.

(** Vocabularies that also declare the legal values of MTRANS. *)
Definition narrow_categories : gmap string (list string) :=
  <[ "MTRANS" := [ "Public_Transportation"; "Walking" ] ]> sample_categories.

Definition sample_store : ArtifactStore :=
  {| modelo_obesidade_pkl := Ok sample_model;
     label_encoder_pkl := Ok sample_encoder;
     expected_columns_pkl := Ok field_names;
     categories_pkl := Ok sample_categories |}.

(** The same store with [categories.pkl] missing. *)
Definition broken_store : ArtifactStore :=
  {| modelo_obesidade_pkl := Ok sample_model;
     label_encoder_pkl := Ok sample_encoder;
     expected_columns_pkl := Ok field_names;
     categories_pkl := Raise (OtherException "FileNotFoundError" "categories.pkl") |}.

(** ** Properties of the derived-feature calculator *)

Lemma classify_bmi_bucket (bmi : Q) (b : bucket) :
  b ∈ bmi_buckets → (classify_bmi bmi = category b ↔ in_bucket bmi b).
Proof.
  unfold bmi_buckets. rewrite !elem_of_cons, elem_of_nil.
  intros Hb. unfold classify_bmi, in_bucket.
  repeat destruct Hb as [-> | Hb]; [.. | done]; cbn [lower upper category];
    repeat (destruct (Qlt_le_dec _ _)); split; intros H;
    try discriminate H; try reflexivity; try (split; lra); try lra;
    destruct H as [Hlo Hhi]; lra.
Qed.

Lemma classify_bmi_category (bmi : Q) :
  ∃ b, b ∈ bmi_buckets ∧ classify_bmi bmi = category b.
Proof.
  unfold classify_bmi, bmi_buckets.
  repeat (destruct (Qlt_le_dec _ _));
    eexists (Bucket _ _ _); (split; revgoals; [ reflexivity | ]);
    repeat first [ apply list_elem_of_here | apply list_elem_of_further ].
Qed.

Lemma bucket_of_category (b b' : bucket) :
  b ∈ bmi_buckets → b' ∈ bmi_buckets → category b = category b' → b = b'.
Proof.
  unfold bmi_buckets. rewrite !elem_of_cons, elem_of_nil.
  intros Hb Hb'.
  repeat destruct Hb as [-> | Hb]; [.. | done];
    repeat destruct Hb' as [-> | Hb']; try (by apply elem_of_nil in Hb');
    cbn [category]; intros Hc; first [ reflexivity | discriminate Hc ].
Qed.

(** *** The floats of the machine and the rationals of the model *)

Lemma digits2_pos_bounds (m : positive) :
  (2 ^ (Z.pos (digits2_pos m) - 1) ≤ Z.pos m < 2 ^ Z.pos (digits2_pos m))%Z.
Proof.
  induction m as [ m IH | m IH | ]; cbn [digits2_pos]; [ | | by vm_compute ].
  all: rewrite Pos2Z.inj_succ, Z.pow_succ_r by lia.
  all: replace (Z.succ (Z.pos (digits2_pos m)) - 1)%Z
         with (Z.succ (Z.pos (digits2_pos m) - 1)) by lia.
  all: rewrite Z.pow_succ_r by lia; lia.
Qed.

(** A valid binary64 mantissa has at most 53 bits, and exactly 53 unless the
    exponent is the least one. *)
Lemma valid_mantissa (s : bool) (m : positive) (e : Z) :
  valid_binary (S754_finite s m e) = true →
  (Z.pos m < 2 ^ 53)%Z ∧ ((-1074 < e)%Z → (2 ^ 52 ≤ Z.pos m)%Z).
Proof.
  cbn [SpecFloat.valid_binary]. unfold bounded, canonical_mantissa, fexp, SpecFloat.emin.
  intros [Hc _]%andb_prop. apply Z.eqb_eq in Hc.
  pose proof (digits2_pos_bounds m) as [Hlo Hhi].
  change (3 - emax - prec)%Z with (-1074)%Z in Hc. change prec with 53%Z in Hc.
  split.
  - eapply Z.lt_le_trans; [ exact Hhi | ]. apply Z.pow_le_mono_r; lia.
  - intros He. replace (Z.pos (digits2_pos m)) with 53%Z in Hlo by lia. exact Hlo.
Qed.

Lemma pow2_pos (e : Z) : 0 < 2 ^ e.
Proof. by apply Qpower_0_lt. Qed.

Lemma pow2_step (e k : Z) : (e < k)%Z → ∃ p, 2 <= p ∧ 2 ^ k == p * 2 ^ e.
Proof.
  intros H. exists (2 ^ (k - e)). split.
  - change 2 with (2 ^ 1) at 1. apply Qpower_le_compat_l; [ lia | done ].
  - rewrite <- Qpower_plus by done. by replace (k - e + e)%Z with k by lia.
Qed.

(** Comparing a valid binary64 value with a positive normal one is comparing
    the rationals they denote. *)
Lemma SFltb_exact (x : spec_float) (q : Q) (mc : positive) (ec : Z) :
  valid_binary x = true →
  binary64_value x = Some q →
  (2 ^ 52 ≤ Z.pos mc < 2 ^ 53)%Z → (-1074 < ec)%Z →
  SFltb x (S754_finite false mc ec) = true ↔ q < inject_Z (Z.pos mc) * 2 ^ ec.
Proof.
  intros Hvalid Hq [Hmc1 Hmc2] Hec.
  assert (Hc1 : 4503599627370496 <= inject_Z (Z.pos mc))
    by (change 4503599627370496 with (inject_Z (2 ^ 52)); by rewrite <- Zle_Qle).
  pose proof (pow2_pos ec) as Hpc.
  destruct x as [ s | s | | s m e ]; try discriminate Hq;
    injection Hq as <-.
  { split; [ intros _; nra | done ]. }
  destruct (valid_mantissa s m e Hvalid) as [Hm2 Hm1].
  assert (Hx2 : inject_Z (Z.pos m) < 9007199254740992)
    by (change 9007199254740992 with (inject_Z (2 ^ 53)); by rewrite <- Zlt_Qlt).
  assert (Hx0 : 0 < inject_Z (Z.pos m))
    by (change 0 with (inject_Z 0); by rewrite <- Zlt_Qlt).
  pose proof (pow2_pos e) as Hpe.
  destruct s; [ split; [ intros _; nra | done ] | ].
  unfold SFltb, SFcompare. rewrite Qmult_1_l.
  destruct (Z.compare_spec e ec) as [ -> | Hlt | Hgt ].
  - rewrite Pos.compare_cont_spec. cbn [Pos.switch_Eq].
    destruct (Pos.compare_spec m mc) as [ -> | Hm | Hm ].
    + split; [ done | intros H; by apply Qlt_irrefl in H ].
    + split; [ intros _ | done ].
      apply Qmult_lt_compat_r; [ done | ]. by rewrite <- Zlt_Qlt.
    + split; [ done | intros H ]. exfalso.
      apply Qmult_lt_r in H; [ | done ]. rewrite <- Zlt_Qlt in H. lia.
  - split; [ intros _ | done ].
    destruct (pow2_step e ec Hlt) as (p & Hp & ->).
    assert (H1 : inject_Z (Z.pos m) < inject_Z (Z.pos mc) * p) by nra.
    rewrite Qmult_assoc. by apply Qmult_lt_compat_r.
  - split; [ done | intros H ]. exfalso.
    assert (Hx1 : 4503599627370496 <= inject_Z (Z.pos m)).
    { change 4503599627370496 with (inject_Z (2 ^ 52)). rewrite <- Zle_Qle.
      apply Hm1. lia. }
    assert (Hc2 : inject_Z (Z.pos mc) < 9007199254740992)
      by (change 9007199254740992 with (inject_Z (2 ^ 53)); by rewrite <- Zlt_Qlt).
    destruct (pow2_step ec e) as (p & Hp & Hpe'); [ lia | ].
    rewrite Hpe', Qmult_assoc in H. apply Qmult_lt_r in H; [ | done ]. nra.
Qed.

(** A comparison [x < c] of floats, [c] positive and normal, is the
    comparison of the rationals. *)
Lemma ltb_exact (x c : float) (q qc : Q) (mc : positive) (ec : Z) :
  binary64_value (Prim2SF x) = Some q →
  Prim2SF c = S754_finite false mc ec →
  (2 ^ 52 ≤ Z.pos mc < 2 ^ 53)%Z → (-1074 < ec)%Z →
  inject_Z (Z.pos mc) * 2 ^ ec == qc →
  (x <? c)%float = true ↔ q < qc.
Proof.
  intros Hq Hc Hmc Hec <-. rewrite ltb_spec, Hc.
  apply SFltb_exact; [ apply Prim2SF_valid | done.. ].
Qed.

(** On every finite binary64 value the classifier over floats returns what
    the classifier over rationals returns on the number it denotes. *)
Lemma classify_bmi_binary64_exact (bmi : float) (q : Q) :
  binary64_value (Prim2SF bmi) = Some q →
  classify_bmi_binary64 bmi = classify_bmi q.
Proof.
  intros Hq.
  assert (H1 := ltb_exact bmi 18.5 q 18.5 _ _ Hq eq_refl).
  assert (H2 := ltb_exact bmi 25 q 25 _ _ Hq eq_refl).
  assert (H3 := ltb_exact bmi 30 q 30 _ _ Hq eq_refl).
  assert (H4 := ltb_exact bmi 35 q 35 _ _ Hq eq_refl).
  assert (H5 := ltb_exact bmi 40 q 40 _ _ Hq eq_refl).
  specialize (H1 ltac:(by vm_compute) ltac:(by vm_compute) ltac:(reflexivity)).
  specialize (H2 ltac:(by vm_compute) ltac:(by vm_compute) ltac:(reflexivity)).
  specialize (H3 ltac:(by vm_compute) ltac:(by vm_compute) ltac:(reflexivity)).
  specialize (H4 ltac:(by vm_compute) ltac:(by vm_compute) ltac:(reflexivity)).
  specialize (H5 ltac:(by vm_compute) ltac:(by vm_compute) ltac:(reflexivity)).
  unfold classify_bmi_binary64, classify_bmi.
  destruct (bmi <? 18.5)%float, (bmi <? 25)%float, (bmi <? 30)%float,
           (bmi <? 35)%float, (bmi <? 40)%float;
    repeat (destruct (Qlt_le_dec _ _)); try reflexivity; exfalso;
    repeat match goal with
           | H : true = true ↔ _ |- _ => destruct H as [H _]; specialize (H eq_refl)
           | H : false = true ↔ _ |- _ => destruct H as [_ H]
           end; try lra;
    repeat match goal with
           | H : ?P → false = true, Hp : ?P |- _ => specialize (H Hp); discriminate H
           end.
Qed.

Lemma classify_bmi_binary64_category (x : float) :
  classify_bmi_binary64 x ∈
    [ "Baixo peso"; "Peso normal"; "Sobrepeso Nível I"; "Obesidade Tipo I";
      "Obesidade Tipo II"; "Obesidade Tipo III" ].
Proof.
  unfold classify_bmi_binary64.
  repeat (destruct (_ <? _)%float);
    repeat first [ apply list_elem_of_here | apply list_elem_of_further ].
Qed.

(** Not-a-number compares false with everything and falls through to the
    last branch; the infinities go to the two ends. *)
Example classify_bmi_binary64_non_finite :
  classify_bmi_binary64 nan = "Obesidade Tipo III" ∧
  classify_bmi_binary64 infinity = "Obesidade Tipo III" ∧
  classify_bmi_binary64 neg_infinity = "Baixo peso".
Proof. by vm_compute. Qed.

(** C1. For every bmi, [classify_bmi] returns one of the six fixed
    categories; it returns a bucket's category exactly when bmi lies in that
    bucket's half-open interval (below 18.5; from 18.5 to below 25; from 25
    to below 30; from 30 to below 35; from 35 to below 40; 40 and above);
    exactly one bucket holds bmi (no gap, no overlap); and the lower bound of
    a bucket belongs to it: 18.5 and 24.999 are "Peso normal", 39.999 is
    "Obesidade Tipo II", 40.0 is "Obesidade Tipo III".  The same holds of the
    classifier run on the machine's floats: it returns one of the six
    categories on every float, on a finite one the category of the number it
    denotes, and the four points, read as floats, get the same categories. *)
#[warnings="-inexact-float"] Theorem classify_bmi_partition :
  (∀ bmi : Q,
     classify_bmi bmi ∈
       [ "Baixo peso"; "Peso normal"; "Sobrepeso Nível I"; "Obesidade Tipo I";
         "Obesidade Tipo II"; "Obesidade Tipo III" ] ∧
     (classify_bmi bmi = "Baixo peso" ↔ bmi < 18.5) ∧
     (classify_bmi bmi = "Peso normal" ↔ 18.5 <= bmi ∧ bmi < 25) ∧
     (classify_bmi bmi = "Sobrepeso Nível I" ↔ 25 <= bmi ∧ bmi < 30) ∧
     (classify_bmi bmi = "Obesidade Tipo I" ↔ 30 <= bmi ∧ bmi < 35) ∧
     (classify_bmi bmi = "Obesidade Tipo II" ↔ 35 <= bmi ∧ bmi < 40) ∧
     (classify_bmi bmi = "Obesidade Tipo III" ↔ 40 <= bmi) ∧
     (∃ b, b ∈ bmi_buckets ∧ in_bucket bmi b ∧
           ∀ b', b' ∈ bmi_buckets → in_bucket bmi b' → b' = b)) ∧
  classify_bmi 18.5 = "Peso normal" ∧
  classify_bmi 24.999 = "Peso normal" ∧
  classify_bmi 39.999 = "Obesidade Tipo II" ∧
  classify_bmi 40.0 = "Obesidade Tipo III" ∧
  (∀ x : float,
     classify_bmi_binary64 x ∈
       [ "Baixo peso"; "Peso normal"; "Sobrepeso Nível I"; "Obesidade Tipo I";
         "Obesidade Tipo II"; "Obesidade Tipo III" ]) ∧
  (∀ (x : float) (q : Q),
     binary64_value (Prim2SF x) = Some q →
     classify_bmi_binary64 x = classify_bmi q) ∧
  classify_bmi_binary64 18.5 = "Peso normal" ∧
  classify_bmi_binary64 24.999 = "Peso normal" ∧
  classify_bmi_binary64 39.999 = "Obesidade Tipo II" ∧
  classify_bmi_binary64 40.0 = "Obesidade Tipo III".
Proof.
  split; [ | repeat (split; [ by vm_compute | ]);
             split; [ exact classify_bmi_binary64_category | ];
             split; [ exact classify_bmi_binary64_exact | by vm_compute ] ].
  intros bmi.
  assert (Hiff : ∀ b, b ∈ bmi_buckets → classify_bmi bmi = category b ↔ in_bucket bmi b)
    by (intros b; apply classify_bmi_bucket).
  assert (Hin : ∀ i b, bmi_buckets !! i = Some b → b ∈ bmi_buckets)
    by (intros i b; apply list_elem_of_lookup_2).
  split.
  { unfold classify_bmi. repeat (destruct (Qlt_le_dec _ _));
      repeat first [ apply list_elem_of_here | apply list_elem_of_further ]. }
  pose proof (Hiff _ (Hin 0%nat _ eq_refl)) as H0.
  pose proof (Hiff _ (Hin 1%nat _ eq_refl)) as H1.
  pose proof (Hiff _ (Hin 2%nat _ eq_refl)) as H2.
  pose proof (Hiff _ (Hin 3%nat _ eq_refl)) as H3.
  pose proof (Hiff _ (Hin 4%nat _ eq_refl)) as H4.
  pose proof (Hiff _ (Hin 5%nat _ eq_refl)) as H5.
  unfold in_bucket in H0, H1, H2, H3, H4, H5.
  cbn [lower upper category] in H0, H1, H2, H3, H4, H5.
  repeat split; try tauto.
  destruct (classify_bmi_category bmi) as (b & Hb & Hc).
  exists b. split; [ exact Hb | ]. split; [ by apply Hiff | ].
  intros b' Hb' Hin'. apply bucket_of_category; [ done | done | ].
  rewrite <- Hc. symmetry. by apply Hiff.
Qed.

Lemma square_unfold (h : Q) : h ^ 2 = h * h.
Proof. reflexivity. Qed.

Lemma square_zero (h : Q) : Qeq_bool (h ^ 2) 0 = true ↔ h == 0.
Proof.
  rewrite Qeq_bool_iff, square_unfold.
  split; intros H; [ | rewrite H; reflexivity ].
  by destruct (Qmult_integral _ _ H).
Qed.

Lemma calculate_bmi_raises (w h : Q) :
  h == 0 → calculate_bmi w h = Raise ZeroDivisionError.
Proof.
  intros H%square_zero. unfold calculate_bmi. by rewrite H.
Qed.

Lemma calculate_bmi_returns (w h : Q) :
  ¬ h == 0 → calculate_bmi w h = Ok (w / h ^ 2).
Proof.
  intros H. unfold calculate_bmi.
  destruct (Qeq_bool (h ^ 2) 0) eqn:E; [ | reflexivity ].
  by apply square_zero in E.
Qed.

(** *** The bmi on the machine's floats *)

Lemma opp_involutive (x : float) : (- - x)%float = x.
Proof.
  apply Prim2SF_inj. rewrite !opp_spec. by destruct (Prim2SF x) as [ [] | [] | | [] ? ? ].
Qed.

Lemma abs_opp (x : float) : abs (- x) = abs x.
Proof.
  apply Prim2SF_inj. rewrite !abs_spec, opp_spec. by destruct (Prim2SF x).
Qed.

Lemma SFcompare_refl (s : bool) (m : positive) (e : Z) :
  SFcompare (S754_finite s m e) (S754_finite s m e) = Some Eq.
Proof.
  unfold SFcompare. rewrite Z.compare_refl, Pos.compare_cont_refl. by destruct s.
Qed.

Lemma is_nan_spec (x : float) :
  is_nan x = match Prim2SF x with S754_nan => true | _ => false end.
Proof.
  unfold is_nan. rewrite FloatAxioms.eqb_spec. unfold SFeqb.
  destruct (Prim2SF x) as [ [] | [] | | s m e ]; try reflexivity.
  by rewrite SFcompare_refl.
Qed.

Lemma is_infinity_spec (x : float) :
  is_infinity x = match Prim2SF x with S754_infinity _ => true | _ => false end.
Proof.
  unfold is_infinity. rewrite FloatAxioms.eqb_spec, abs_spec.
  change (Prim2SF infinity) with (S754_infinity false).
  by destruct (Prim2SF x) as [ [] | [] | | [] m e ].
Qed.

Lemma is_zero_spec (x : float) :
  (x =? 0)%float = match Prim2SF x with S754_zero _ => true | _ => false end.
Proof.
  rewrite FloatAxioms.eqb_spec. change (Prim2SF 0) with (S754_zero false).
  by destruct (Prim2SF x) as [ [] | [] | | [] m e ].
Qed.

Lemma is_negative_spec (x : float) :
  (x <? 0)%float =
  match Prim2SF x with
  | S754_infinity s | S754_finite s _ _ => s
  | _ => false
  end.
Proof.
  rewrite ltb_spec. change (Prim2SF 0) with (S754_zero false).
  by destruct (Prim2SF x) as [ [] | [] | | [] m e ].
Qed.

Lemma float_pow2_opp libm_pow (h : float) :
  float_pow2 libm_pow (- h) = float_pow2 libm_pow h.
Proof.
  unfold float_pow2.
  rewrite (is_nan_spec (- h)), (is_infinity_spec (- h)), (is_zero_spec (- h)),
    (is_negative_spec (- h)), abs_opp, opp_involutive, opp_spec.
  rewrite (is_nan_spec h), (is_infinity_spec h), (is_zero_spec h), (is_negative_spec h).
  destruct (Prim2SF h) as [ s | s | | s m e ] eqn:E; cbn [SFopp]; try reflexivity.
  - f_equal. apply Prim2SF_inj. by rewrite opp_spec, E.
  - by destruct s.
Qed.

Lemma abs_of_finite (h : float) :
  is_nan h = false → is_infinity h = false → (h =? 0)%float = false →
  (if (h <? 0)%float then (- h)%float else h) = abs h.
Proof.
  rewrite is_nan_spec, is_infinity_spec, is_zero_spec, is_negative_spec.
  intros Hn Hi Hz. apply Prim2SF_inj. rewrite abs_spec.
  destruct (Prim2SF h) as [ s | s | | [] m e ] eqn:E; try discriminate.
  - by rewrite opp_spec, E.
  - by rewrite E.
Qed.

Lemma float_pow2_raises libm_pow (h : float) (e : exn) :
  float_pow2 libm_pow h = Raise e →
  e = OverflowError "(34, 'Numerical result out of range')" ∨
  e = ValueError "(33, 'Numerical argument out of domain')".
Proof.
  unfold float_pow2.
  destruct (is_nan h); [ intros [=] | ].
  destruct (is_infinity h); [ intros [=] | ].
  destruct (h =? 0)%float; [ intros [=] | ].
  destruct (_ =? 1)%float; [ intros [=] | ].
  destruct (libm_pow _) as [ix err].
  destruct (adjust_erange ix err); intros [=]; subst; auto.
Qed.

(** What the two models say at the ends of the range: in exact arithmetic
    the square of 2^-600 is not zero and the call returns; on the machine
    it underflows to zero and the division raises. *)
Example exact_and_binary64_differ :
  (∃ bmi, calculate_bmi 70 (2 ^ (-600)) = Ok bmi) ∧
  calculate_bmi_binary64 rounded_pow 70 0x1p-600 = Raise ZeroDivisionError.
Proof. split; [ by eexists | by vm_compute ]. Qed.

(** The two scenarios of the specification on the machine's floats, with
    the correctly rounding C library: the results are the floats Python
    prints, and their categories are the ones of the exact results.  At a
    boundary the two can part: 64 / 1.6 ** 2 is 25 in exact arithmetic and
    the float just below 25 on the machine. *)
#[warnings="-inexact-float"] Example binary64_scenarios :
  calculate_bmi_binary64 rounded_pow 70.0 1.70 = Ok 24.221453287197235%float ∧
  classify_bmi_binary64 24.221453287197235 = "Peso normal" ∧
  calculate_bmi_binary64 rounded_pow 100.0 1.60 = Ok 39.06249999999999%float ∧
  classify_bmi_binary64 39.06249999999999 = "Obesidade Tipo II" ∧
  calculate_bmi_binary64 rounded_pow 64.0 1.60 = Ok 24.999999999999996%float ∧
  classify_bmi_binary64 24.999999999999996 = "Peso normal" ∧
  (∃ bmi, calculate_bmi 64.0 1.60 = Ok bmi ∧ bmi == 25 ∧
          classify_bmi bmi = "Sobrepeso Nível I").
Proof.
  repeat (split; [ by vm_compute | ]).
  eexists. split; [ reflexivity | ]. split; by vm_compute.
Qed.



(** The form keeps the height at 1.0 or more, so a submitted form never
    divides by zero, and the bmi stays between 4.8 and 300. *)
Lemma form_values_bmi categories inp :
  form_values categories inp →
  ∃ bmi, calculate_bmi (weight inp) (height inp) = Ok bmi ∧
         4.8 <= bmi ∧ bmi <= 300.
Proof.
  intros (_ & Hh1 & Hh2 & Hw1 & Hw2 & _).
  exists (weight inp / height inp ^ 2).
  split; [ apply calculate_bmi_returns; lra | ].
  rewrite square_unfold. split.
  - apply Qle_shift_div_l; nra.
  - apply Qle_shift_div_r; nra.
Qed.

(** C3. The two scenarios of the specification.  Height 1.70 and weight
    70.0 give a bmi that rounds to 24.22 at two decimals, and its category
    is "Peso normal", the second bucket; height 1.60 and weight 100.0 give a
    bmi that rounds to 39.06, and its category is "Obesidade Tipo II", the
    fifth bucket. *)
Theorem bmi_scenarios :
  (∃ bmi, calculate_bmi 70.0 1.70 = Ok bmi ∧
          24.215 <= bmi ∧ bmi < 24.225 ∧
          classify_bmi bmi = "Peso normal" ∧
          category <$> bmi_buckets !! 1%nat = Some (classify_bmi bmi)) ∧
  (∃ bmi, calculate_bmi 100.0 1.60 = Ok bmi ∧
          39.055 <= bmi ∧ bmi < 39.065 ∧
          classify_bmi bmi = "Obesidade Tipo II" ∧
          category <$> bmi_buckets !! 4%nat = Some (classify_bmi bmi)).
Proof.
  split; eexists; (split; [ reflexivity | ]); repeat split; by vm_compute.
Qed.

(** ** Properties of the label tables *)

Lemma translate_unknown (label : string) :
  label ∉ english_labels → translate label = label.
Proof.
  intros H. unfold translate, label_translation.
  by rewrite (not_elem_of_list_to_map_1 _ _ H).
Qed.

Lemma recommend_unknown (label : string) :
  label ∉ localized_labels → recommend label = fallback_recommendation.
Proof.
  intros H. unfold recommend, recommendations.
  by rewrite (not_elem_of_list_to_map_1 _ _ H).
Qed.

Lemma translate_known (label : string) :
  label ∈ english_labels → translate label ≠ label ∧ translate label ∈ localized_labels.
Proof.
  unfold english_labels. cbn [fmap list_fmap label_translation_items fst].
  rewrite !elem_of_cons, elem_of_nil. intros H.
  repeat destruct H as [ -> | H ]; [ .. | done ];
    (split; [ by vm_compute | ]); vm_compute;
    repeat first [ apply list_elem_of_here | apply list_elem_of_further ].
Qed.

Lemma recommend_known (label : string) :
  label ∈ localized_labels → recommend label ≠ fallback_recommendation.
Proof.
  unfold localized_labels. cbn [fmap list_fmap recommendations_items fst].
  rewrite !elem_of_cons, elem_of_nil. intros H.
  repeat destruct H as [ -> | H ]; [ .. | done ]; by vm_compute.
Qed.

(** The claim as the specification words it fails: "Peso Normal" is not one
    of the six English labels, so [translate] returns it unchanged; but it
    is a key of the recommendations, and [recommend] returns its text, not
    the generic message. *)
Lemma localized_label_keeps_recommendation :
  ("Peso Normal" ∉ english_labels) ∧
  translate "Peso Normal" = "Peso Normal" ∧
  recommend (translate "Peso Normal") ≠ fallback_recommendation ∧
  recommendations !! "Peso Normal" = Some (recommend (translate "Peso Normal")).
Proof.
  split; [ apply (bool_decide_unpack _); by vm_compute | ].
  split; [ by vm_compute | ]. split; by vm_compute.
Qed.

(** C6, as the code has it.  [translate] and [recommend] return a value for
    every string.  Each of the six English labels translates to its fixed
    localized name, and the recommendation of that name is the text the
    table holds for it (the i-th English label goes to the i-th entry of
    [recommendations]).  [translate] returns its input unchanged exactly
    when it is not one of the six English labels; [recommend] returns the
    generic message exactly when its input is not one of the six localized
    names.  So a predicted label that is neither English nor localized is
    shown unchanged with the generic message, while a localized name given
    as a label is shown unchanged with its own recommendation. *)
Theorem translate_recommend_total :
  translate "Insufficient_Weight" = "Baixo Peso" ∧
  translate "Normal_Weight" = "Peso Normal" ∧
  translate "Overweight_Level_I" = "Sobrepeso Nível I" ∧
  translate "Obesity_Type_I" = "Obesidade Tipo I" ∧
  translate "Obesity_Type_II" = "Obesidade Tipo II" ∧
  translate "Obesity_Type_III" = "Obesidade Tipo III" ∧
  Forall2 (λ en item, translate en = item.1 ∧ recommend (translate en) = item.2)
          english_labels recommendations_items ∧
  Forall (λ item, recommend item.1 = item.2) recommendations_items ∧
  (∀ label, label ∉ english_labels → translate label = label) ∧
  (∀ label, label ∉ localized_labels → recommend label = fallback_recommendation) ∧
  (∀ label, label ∉ english_labels → label ∉ localized_labels →
            translate label = label ∧
            recommend (translate label) = fallback_recommendation) ∧
  (∀ label, translate label = label ↔ label ∉ english_labels) ∧
  (∀ label, recommend label = fallback_recommendation ↔ label ∉ localized_labels) ∧
  (∀ label, recommend (translate label) = fallback_recommendation ↔
            (label ∉ english_labels) ∧ (label ∉ localized_labels)).
Proof.
  repeat (split; [ by vm_compute | ]).
  split; [ repeat constructor; by vm_compute | ].
  split; [ repeat constructor; by vm_compute | ].
  split; [ exact translate_unknown | ].
  split; [ exact recommend_unknown | ].
  split.
  { intros label Hen Hpt. rewrite (translate_unknown _ Hen).
    split; [ reflexivity | by apply recommend_unknown ]. }
  assert (Hr : ∀ label, recommend label = fallback_recommendation ↔
                        label ∉ localized_labels).
  { intros label. split; [ | apply recommend_unknown ].
    intros Heq Hin. by apply (recommend_known label Hin). }
  split; [ | split; [ exact Hr | ] ].
  - intros label. split; [ | apply translate_unknown ].
    intros Heq Hin. by apply (translate_known label Hin).
  - intros label. rewrite Hr.
    destruct (decide (label ∈ english_labels)) as [ Hin | Hout ].
    + split; [ | tauto ]. intros Hn. destruct Hn. by apply translate_known.
    + rewrite (translate_unknown label Hout). tauto.
Qed.

(** C10. The translation of each of the six English model labels is a key
    of the recommendations table, so its recommendation is the table's text
    and never the generic "Consulte um profissional de saúde." *)
Theorem known_label_has_recommendation (label : string) :
  label ∈ [ "Insufficient_Weight"; "Normal_Weight"; "Overweight_Level_I";
            "Obesity_Type_I"; "Obesity_Type_II"; "Obesity_Type_III" ] →
  is_Some (label_translation !! label) ∧
  translate label ∈ localized_labels ∧
  is_Some (recommendations !! translate label) ∧
  recommendations !! translate label = Some (recommend (translate label)) ∧
  recommend (translate label) ≠ "Consulte um profissional de saúde.".
Proof.
  rewrite !elem_of_cons, elem_of_nil. intros H.
  repeat destruct H as [-> | H]; [ .. | done ];
    (split; [ by vm_compute; eexists | ]);
    (split; [ vm_compute;
              repeat first [ apply list_elem_of_here | apply list_elem_of_further ] | ]);
    (split; [ by vm_compute; eexists | ]);
    (split; [ by vm_compute | ]);
    vm_compute; intros Heq; discriminate Heq.
Qed.

Lemma known_label_has_recommendation_witness :
  recommend (translate "Normal_Weight") ≠ "Consulte um profissional de saúde.".
Proof.
  refine (proj2 (proj2 (proj2 (proj2
            (known_label_has_recommendation "Normal_Weight" _))))).
  apply list_elem_of_further, list_elem_of_here.
Defined.

(** ** Properties of the record assembler *)

Section frame.

Implicit Types (df : DataFrame) (cols : list string) (c : string) (v : cell).

Lemma get_cell_None c df : get_cell c df = None ↔ c ∉ columns df.
Proof.
  unfold columns. induction df as [ | [c' v] df IH ]; simpl.
  - split; [ intros _; apply not_elem_of_nil | done ].
  - rewrite not_elem_of_cons. case_decide as Hc.
    + split; [ done | intros [Hne _]; by destruct Hne ].
    + rewrite IH. split; [ intros H; split; [ by intros -> | done ] | by intros [_ H] ].
Qed.

Lemma get_cell_is_Some c df : c ∈ columns df → is_Some (get_cell c df).
Proof.
  intros Hin. destruct (get_cell c df) eqn:E; [ by eexists | ].
  by apply get_cell_None in E.
Qed.

Lemma elem_of_columns c df : c ∈ columns df ↔ ∃ v, (c, v) ∈ df.
Proof.
  unfold columns. rewrite list_elem_of_fmap. split.
  - intros ([c' v] & -> & H). by exists v.
  - intros (v & H). by exists (c, v).
Qed.

Lemma get_cell_unique c v df :
  NoDup (columns df) → (c, v) ∈ df → get_cell c df = Some v.
Proof.
  unfold columns. induction df as [ | [c0 v0] df IH ]; cbn [fmap list_fmap fst get_cell].
  - intros _ H. by apply elem_of_nil in H.
  - intros [Hc0 Hnd]%NoDup_cons [ [= -> ->] | H ]%elem_of_cons.
    + by rewrite decide_True.
    + rewrite decide_False; [ by apply IH | ].
      intros ->. apply Hc0, elem_of_columns. by exists v.
Qed.

Lemma get_cell_app c df1 df2 :
  get_cell c (df1 ++ df2) =
  match get_cell c df1 with Some v => Some v | None => get_cell c df2 end.
Proof.
  induction df1 as [ | [c' v'] df1 IH ]; simpl; [ done | ]. by case_decide.
Qed.

Lemma elem_of_columns_named c c' v df :
  (c', v) ∈ columns_named c df ↔ c' = c ∧ (c, v) ∈ df.
Proof.
  unfold columns_named. rewrite list_elem_of_filter. cbn.
  split; intros [-> H]; done.
Qed.

(** The cells of a selection: those of the frame under a requested label. *)
Lemma elem_of_selected df cols c v :
  (c, v) ∈ cols ≫= (λ c, columns_named c df) ↔ c ∈ cols ∧ (c, v) ∈ df.
Proof.
  rewrite list_elem_of_bind. split.
  - intros (c' & [-> H]%elem_of_columns_named & Hc'). done.
  - intros [Hc H]. exists c. split; [ by apply elem_of_columns_named | done ].
Qed.

Lemma get_cell_columns_named c c' df :
  get_cell c (columns_named c' df) = if decide (c' = c) then get_cell c df else None.
Proof.
  unfold columns_named. induction df as [ | [c0 v0] df IH ]; [ by case_decide | ].
  rewrite filter_cons. cbn [fst get_cell].
  destruct (decide (c0 = c')) as [ -> | H0 ];
    destruct (decide (c' = c)) as [ -> | H1 ];
    cbn [get_cell]; rewrite ?decide_True, ?decide_False by done; done.
Qed.

(** Reading a requested label from a selection gives the cell the frame has
    under that label. *)
Lemma selected_cell df cols c :
  c ∈ cols → get_cell c (cols ≫= λ c, columns_named c df) = get_cell c df.
Proof.
  induction cols as [ | c0 cols IH ]; intros Hin; [ by apply elem_of_nil in Hin | ].
  rewrite bind_cons, get_cell_app, get_cell_columns_named.
  case_decide as Hc.
  - subst c0. destruct (get_cell c df) eqn:E; [ done | ].
    apply get_cell_None. rewrite elem_of_columns. intros (v & [_ H]%elem_of_selected).
    apply get_cell_None in E. apply E, elem_of_columns. by exists v.
  - apply IH. apply elem_of_cons in Hin as [ -> | Hin ]; done.
Qed.

Lemma columns_named_absent c df : c ∉ columns df → columns_named c df = [].
Proof.
  intros Hc. unfold columns_named.
  destruct (filter (λ col : string * cell, col.1 = c) df)
    as [ | [c' v] rest ] eqn:E; [ done | ].
  assert (H : (c', v) ∈ filter (λ col : string * cell, col.1 = c) df) by (rewrite E; left).
  apply list_elem_of_filter in H as [Hn H]. cbn in Hn. subst c'.
  destruct Hc. apply elem_of_columns. by exists v.
Qed.

(** In a frame without repeated names a label has one column. *)
Lemma columns_named_unique c df :
  NoDup (columns df) → c ∈ columns df → ∃ v, columns_named c df = [ (c, v) ].
Proof.
  unfold columns. induction df as [ | [c0 v0] df IH ]; cbn [fmap list_fmap fst].
  - intros _ H. by apply elem_of_nil in H.
  - intros [Hc0 Hnd]%NoDup_cons Hin. unfold columns_named. rewrite filter_cons.
    cbn [fst]. destruct (decide (c0 = c)) as [ H0 | H0 ].
    + subst c0. exists v0. f_equal. by apply columns_named_absent.
    + apply elem_of_cons in Hin as [ -> | Hin ]; [ done | ]. by apply IH.
Qed.

Lemma bind_ext_in {A B} (f g : A → list B) (l : list A) :
  (∀ x, x ∈ l → f x = g x) → l ≫= f = l ≫= g.
Proof.
  induction l as [ | x l IH ]; intros H; [ done | ].
  rewrite !bind_cons, (H x) by left. f_equal. apply IH. intros y Hy. apply H. by right.
Qed.

Lemma selected_columns df cols :
  NoDup (columns df) → cols ⊆ columns df →
  columns (cols ≫= λ c, columns_named c df) = cols.
Proof.
  intros Hnd. unfold columns at 2.
  induction cols as [ | c cols IH ]; intros Hsub; [ done | ].
  rewrite bind_cons, fmap_app.
  destruct (columns_named_unique c df Hnd) as [v ->]; [ apply Hsub; left | ].
  cbn. f_equal. apply IH. intros c' Hc'. apply Hsub. by right.
Qed.

Lemma select_own_columns df :
  NoDup (columns df) → columns df ≫= (λ c, columns_named c df) = df.
Proof.
  unfold columns. induction df as [ | [c v] df IH ]; [ done | ].
  cbn [fmap list_fmap fst]. intros [Hc Hnd]%NoDup_cons.
  rewrite bind_cons. unfold columns_named at 1. rewrite filter_cons. cbn [fst].
  rewrite decide_True by done.
  fold (columns_named c df). rewrite (columns_named_absent c df Hc). cbn. f_equal.
  etrans; [ | exact (IH Hnd) ]. apply bind_ext_in. intros c' Hc'.
  unfold columns_named. rewrite decide_False; [ done | ]. by intros ->.
Qed.

Lemma missing_spec c df cols :
  c ∈ filter (λ c, c ∉ columns df) cols ↔ c ∈ cols ∧ c ∉ columns df.
Proof. rewrite list_elem_of_filter. tauto. Qed.

Lemma select_columns_Ok df cols :
  cols ⊆ columns df →
  select_columns df cols = Ok (cols ≫= λ c, columns_named c df).
Proof.
  intros Hsub. unfold select_columns. rewrite decide_True; [ done | ].
  destruct (filter _ cols) as [ | c nf ] eqn:E; [ done | ].
  assert (Hc : c ∈ filter (λ c, c ∉ columns df) cols) by (rewrite E; left).
  apply missing_spec in Hc as [Hin Hnot]. destruct Hnot. by apply Hsub.
Qed.

Lemma elem_of_unique c labels : c ∈ unique labels ↔ c ∈ labels.
Proof.
  unfold unique.
  assert (H : ∀ seen, c ∈ foldl (λ seen c, if decide (c ∈ seen) then seen else seen ++ [c])
                            seen labels ↔ c ∈ seen ∨ c ∈ labels).
  { induction labels as [ | x labels IH ]; intros seen; cbn [foldl].
    - rewrite elem_of_nil. tauto.
    - rewrite IH, elem_of_cons. case_decide as Hx.
      + split; [ tauto | ]. intros [ ? | [ -> | ? ] ]; tauto.
      + rewrite elem_of_app, list_elem_of_singleton. tauto. }
  rewrite H, elem_of_nil. tauto.
Qed.

Lemma filter_all {A} (P : A → Prop) `{!∀ x, Decision (P x)} (l : list A) :
  length (filter P l) = length l → Forall P l.
Proof.
  intros Hlen. apply Forall_forall. intros x Hx.
  destruct (decide (P x)) as [ | Hn ]; [ done | ].
  pose proof (length_filter_lt P l x Hx Hn). lia.
Qed.

(** The two messages of a failed selection: none of the requested labels
    is a column, and the message lists them as requested; or some are, and
    it lists the others, each once. *)
Lemma select_columns_Raise df cols e :
  select_columns df cols = Raise e →
  (e = KeyError cols ∧ cols ≠ [] ∧ Forall (λ c, c ∉ columns df) cols) ∨
  (e = KeyError (unique (filter (λ c, c ∉ columns df) cols)) ∧
   filter (λ c, c ∉ columns df) cols ≠ [] ∧
   ∃ c, c ∈ cols ∧ c ∈ columns df).
Proof.
  unfold select_columns. case_decide as Hnone; [ intros [=] | ].
  case_decide as Hall; intros [= <-].
  - left. split; [ done | ]. split; [ intros ->; by destruct Hnone | ].
    by apply filter_all in Hall.
  - right. split; [ done | ]. split; [ done | ].
    destruct (decide (Forall (λ c, c ∉ columns df) cols)) as [ Hf | Hf ].
    + destruct Hall. f_equal. clear Hnone.
      induction Hf as [ | c cols Hc _ IH ]; [ done | ].
      rewrite filter_cons, decide_True by done. by f_equal.
    + apply not_Forall_Exists in Hf; [ | apply _ ].
      apply Exists_exists in Hf as (c & Hc & Hin). exists c.
      split; [ done | ]. by apply dec_stable.
Qed.

(** A failed selection is a [KeyError] whose labels are the requested
    labels that are no columns of the frame. *)
Lemma select_columns_not_found df cols e :
  select_columns df cols = Raise e →
  ∃ not_found,
    e = KeyError not_found ∧ not_found ≠ [] ∧
    ∀ c, c ∈ not_found ↔ c ∈ cols ∧ c ∉ columns df.
Proof.
  intros [ (-> & Hne & Hall) | (-> & Hne & _) ]%select_columns_Raise.
  - exists cols. split; [ done | ]. split; [ done | ].
    rewrite Forall_forall in Hall.
    intros c. split; [ intros Hc; split; [ done | by apply Hall ] | by intros [? _] ].
  - eexists. split; [ done | ]. split.
    + destruct (filter _ cols) as [ | c nf ] eqn:E; [ done | ].
      intros Hu. assert (Hc : c ∈ unique (c :: nf)) by (apply elem_of_unique; left).
      rewrite Hu in Hc. by apply elem_of_nil in Hc.
    + intros c. rewrite elem_of_unique. apply missing_spec.
Qed.

(** Selection fails exactly when a requested label is not a column. *)
Lemma select_columns_raised df cols :
  raised (select_columns df cols) ↔ ∃ c, c ∈ cols ∧ c ∉ columns df.
Proof.
  split.
  - destruct (select_columns df cols) as [ | e ] eqn:E; [ done | intros _ ].
    apply select_columns_not_found in E as (nf & _ & Hne & Hnf).
    destruct nf as [ | c nf ]; [ done | ]. exists c. apply Hnf. left.
  - intros (c & Hin & Hnot). unfold select_columns.
    rewrite decide_False; [ by case_decide | ].
    intros Hnone. assert (Hc : c ∈ filter (λ c, c ∉ columns df) cols)
      by (by apply missing_spec).
    rewrite Hnone in Hc. by apply elem_of_nil in Hc.
Qed.

Lemma select_columns_Ok_inv df cols (r : DataFrame) :
  select_columns df cols = Ok r →
  cols ⊆ columns df ∧ r = cols ≫= λ c, columns_named c df.
Proof.
  intros H.
  assert (Hsub : cols ⊆ columns df).
  { intros c Hc. destruct (decide (c ∈ columns df)) as [ | Hn ]; [ done | ].
    assert (Hr : raised (select_columns df cols))
      by (apply select_columns_raised; by exists c).
    rewrite H in Hr. destruct Hr. }
  split; [ exact Hsub | ].
  rewrite (select_columns_Ok df cols Hsub) in H. by injection H.
Qed.

Lemma patient_record_columns (inp : RawInputs) :
  columns (patient_record inp) = field_names.
Proof. reflexivity. Qed.

Lemma field_names_NoDup : NoDup field_names.
Proof. apply (bool_decide_unpack _). by vm_compute. Qed.

End frame.

(** C4. Assembling the sixteen raw values (the age coerced to a float) and
    reordering by the expected column order, whose names are fields of the
    record, returns a frame whose columns are the expected column order,
    name for name and in the same order; no name is missing and none is
    extra; the cells of the reordered frame are the assembled ones under the
    expected names; the numeric fields hold floats and the others strings;
    and each of the sixteen fields, read back, holds the raw value it was
    given, and no other. *)
Theorem assemble_roundtrip (inp : RawInputs) (expected_columns : list string) :
  expected_columns ⊆ field_names →
  ∃ input_data,
    select_columns (patient_record inp) expected_columns = Ok input_data ∧
    columns input_data = expected_columns ∧
    (∀ c, c ∈ columns input_data ↔ c ∈ expected_columns) ∧
    (field_names ⊆ expected_columns →
       ∀ c, c ∈ columns input_data ↔ c ∈ columns (patient_record inp)) ∧
    (∀ c, c ∈ expected_columns →
          is_Some (get_cell c input_data) ∧
          get_cell c input_data = get_cell c (patient_record inp)) ∧
    (∀ c v, (c, v) ∈ input_data ↔
            c ∈ expected_columns ∧ (c, v) ∈ patient_record inp) ∧
    (∀ c v, (c, v) ∈ input_data →
            if decide (c ∈ numeric_fields)
            then ∃ q, v = CFloat q
            else ∃ s, v = CStr s) ∧
    Forall (λ field, field.1 ∈ expected_columns →
                     get_cell field.1 input_data = Some field.2 ∧
                     ∀ v, (field.1, v) ∈ input_data → v = field.2)
      [ ("Gender", CStr (gender inp));
        ("Age", CFloat (inject_Z (age inp)));
        ("Height", CFloat (height inp));
        ("Weight", CFloat (weight inp));
        ("family_history", CStr (family_history inp));
        ("FAVC", CStr (favc inp));
        ("FCVC", CFloat (fvc inp));
        ("NCP", CFloat (ncp inp));
        ("CAEC", CStr (caec inp));
        ("SMOKE", CStr (smoke inp));
        ("CH2O", CFloat (ch2o inp));
        ("SCC", CStr (scc inp));
        ("FAF", CFloat (faf inp));
        ("TUE", CFloat (tue inp));
        ("CALC", CStr (calc inp));
        ("MTRANS", CStr (mtrans inp)) ].
Proof.
  intros Hsub. eexists. split; [ by apply select_columns_Ok | ].
  assert (Hnd : NoDup (columns (patient_record inp))) by apply field_names_NoDup.
  assert (Hcols := selected_columns (patient_record inp) _ Hnd Hsub).
  assert (Hcell := selected_cell (patient_record inp) expected_columns).
  assert (Hmem := elem_of_selected (patient_record inp) expected_columns).
  split; [ exact Hcols | ]. split; [ by rewrite Hcols | ].
  split; [ intros Hsup c; rewrite Hcols; split; [ apply Hsub | apply Hsup ] | ].
  split.
  { intros c Hc. rewrite (Hcell c Hc). split; [ | done ].
    apply get_cell_is_Some, Hsub, Hc. }
  split; [ exact Hmem | ].
  split.
  { intros c v [_ H]%Hmem. revert H. unfold patient_record.
    rewrite !elem_of_cons, elem_of_nil. intros H.
    repeat destruct H as [ [= -> ->] | H ]; [ .. | done ];
      case_decide as Hd;
      first [ by eexists
            | exfalso; revert Hd; apply (bool_decide_unpack _); by vm_compute ]. }
  assert (Hread : ∀ c v, get_cell c (patient_record inp) = Some v →
            c ∈ expected_columns →
            get_cell c (expected_columns ≫= λ c, columns_named c (patient_record inp)) = Some v ∧
            ∀ v', (c, v') ∈ expected_columns ≫= (λ c, columns_named c (patient_record inp)) →
                  v' = v).
  { intros c v Hv Hc. split; [ by rewrite Hcell | ].
    intros v' [_ H]%Hmem. apply (get_cell_unique _ _ _ Hnd) in H.
    rewrite Hv in H. by injection H. }
  repeat (constructor; [ cbn [fst snd]; intros Hc; by apply Hread | ]).
  constructor.
Qed.

Lemma assemble_roundtrip_witness :
  ∃ input_data,
    select_columns (patient_record default_inputs) (reverse field_names) = Ok input_data ∧
    columns input_data = reverse field_names ∧
    get_cell "Age" input_data = Some (CFloat 30) ∧
    get_cell "Height" input_data = Some (CFloat 1.70) ∧
    get_cell "CAEC" input_data = Some (CStr "Always").
Proof.
  assert (Hsub : reverse field_names ⊆ field_names)
    by (intros c Hc; by apply elem_of_reverse).
  destruct (assemble_roundtrip default_inputs (reverse field_names) Hsub)
    as (df & Hok & Hcols & _ & _ & _ & _ & _ & Hread).
  assert (Hin : ∀ c, c ∈ field_names → c ∈ reverse field_names)
    by (intros c Hc; by apply elem_of_reverse).
  rewrite Forall_forall in Hread.
  exists df. split; [ exact Hok | ]. split; [ exact Hcols | ].
  split; [ | split ].
  - apply (Hread ("Age", _)); [ | apply Hin ]; cbn;
      repeat first [ apply list_elem_of_here | apply list_elem_of_further ].
  - apply (Hread ("Height", _)); [ | apply Hin ]; cbn;
      repeat first [ apply list_elem_of_here | apply list_elem_of_further ].
  - apply (Hread ("CAEC", _)); [ | apply Hin ]; cbn;
      repeat first [ apply list_elem_of_here | apply list_elem_of_further ].
Defined.

(** ** Properties of the prediction cycle *)

Section cycle.

Variable model : Model.
Variable label_encoder : LabelEncoder.
Variable expected_columns : list string.

Local Abbreviation cycle := (prediction_cycle model label_encoder expected_columns).
Local Abbreviation raises := (cycle_raises model label_encoder expected_columns).

(** Unfold the cycle up to its next stage and use what is known of it. *)
Ltac stage H := rewrite H; cbn [mbind comp_bind pure_step call emit app].

Lemma cycle_stops_at_calculate_bmi inp e :
  calculate_bmi (weight inp) (height inp) = Raise e →
  cycle inp = ([], Raise e).
Proof. intros H1. unfold prediction_cycle. by stage H1. Qed.

Lemma cycle_stops_at_assembly inp bmi e :
  calculate_bmi (weight inp) (height inp) = Ok bmi →
  select_columns (patient_record inp) expected_columns = Raise e →
  cycle inp = ([], Raise e).
Proof. intros H1 H2. unfold prediction_cycle. stage H1. by stage H2. Qed.

Lemma cycle_stops_at_predict inp bmi input_data e :
  calculate_bmi (weight inp) (height inp) = Ok bmi →
  select_columns (patient_record inp) expected_columns = Ok input_data →
  predict model input_data = Raise e →
  cycle inp = ([CallPredict input_data], Raise e).
Proof.
  intros H1 H2 H3. unfold prediction_cycle. stage H1. stage H2. by stage H3.
Qed.

Lemma cycle_stops_at_predict_proba inp bmi input_data prediction e :
  calculate_bmi (weight inp) (height inp) = Ok bmi →
  select_columns (patient_record inp) expected_columns = Ok input_data →
  predict model input_data = Ok prediction →
  predict_proba model input_data = Raise e →
  cycle inp = ([CallPredict input_data; CallPredictProba input_data], Raise e).
Proof.
  intros H1 H2 H3 H4. unfold prediction_cycle.
  stage H1. stage H2. stage H3. by stage H4.
Qed.

Lemma cycle_stops_at_inverse_transform inp bmi input_data prediction prediction_proba e :
  calculate_bmi (weight inp) (height inp) = Ok bmi →
  select_columns (patient_record inp) expected_columns = Ok input_data →
  predict model input_data = Ok prediction →
  predict_proba model input_data = Ok prediction_proba →
  inverse_transform label_encoder prediction = Raise e →
  cycle inp = (calls_made input_data prediction, Raise e).
Proof.
  intros H1 H2 H3 H4 H5. unfold prediction_cycle.
  stage H1. stage H2. stage H3. stage H4. by stage H5.
Qed.

Lemma cycle_stops_at_display inp bmi input_data prediction prediction_proba prediction_label e :
  calculate_bmi (weight inp) (height inp) = Ok bmi →
  select_columns (patient_record inp) expected_columns = Ok input_data →
  predict model input_data = Ok prediction →
  predict_proba model input_data = Ok prediction_proba →
  inverse_transform label_encoder prediction = Ok prediction_label →
  (np_max prediction_proba = Raise e ∨
   (¬ raised (np_max prediction_proba) ∧
    prob_df (translate <$> classes_ label_encoder)
            ((λ p, round1 (p * 100)) <$> prediction_proba) = Raise e)) →
  ∃ shown, cycle inp = (calls_made input_data prediction ++ shown, Raise e) ∧
           Forall (λ ev, is_model_call ev = false ∧ is_error ev = false) shown.
Proof.
  intros H1 H2 H3 H4 H5 H6. unfold prediction_cycle.
  stage H1. stage H2. stage H3. stage H4. stage H5.
  destruct H6 as [ H6 | [Hmax H6] ].
  - stage H6. eexists. split; [ reflexivity | ]. by repeat constructor.
  - destruct (np_max prediction_proba) as [ max_prob | ]; [ | by destruct Hmax ].
    cbn [mbind comp_bind pure_step call emit app]. stage H6.
    eexists. split; [ reflexivity | ]. by repeat constructor.
Qed.

Lemma count_events_app kind (shown shown' : list event) :
  count_events kind (shown ++ shown') =
  (count_events kind shown + count_events kind shown')%nat.
Proof. unfold count_events. by rewrite List.filter_app, length_app. Qed.

Lemma count_events_none kind (shown : list event) :
  Forall (λ ev, kind ev = false) shown → count_events kind shown = 0%nat.
Proof.
  unfold count_events. induction 1 as [ | ev shown Hev _ IH ]; [ done | ].
  cbn. by rewrite Hev.
Qed.

(** An exception of any stage ends the body with that exception; by then
    each artifact has been called at most once and no error was shown. *)
Lemma cycle_raises_outcome inp e :
  raises inp e →
  ∃ shown,
    cycle inp = (shown, Raise e) ∧
    (count_events is_predict shown ≤ 1)%nat ∧
    (count_events is_predict_proba shown ≤ 1)%nat ∧
    (count_events is_inverse_transform shown ≤ 1)%nat ∧
    count_events is_error shown = 0%nat.
Proof.
  intros [ H1 | bmi H1 H2 | bmi df H1 H2 H3 | bmi df p H1 H2 H3 H4
         | bmi df p pp H1 H2 H3 H4 H5 | bmi df p pp l H1 H2 H3 H4 H5 H6 ].
  - eexists. split; [ by apply cycle_stops_at_calculate_bmi | cbn; lia ].
  - eexists. split; [ by eapply cycle_stops_at_assembly | cbn; lia ].
  - eexists. split; [ by eapply cycle_stops_at_predict | cbn; lia ].
  - eexists. split; [ by eapply cycle_stops_at_predict_proba | cbn; lia ].
  - eexists. split; [ by eapply cycle_stops_at_inverse_transform | cbn; lia ].
  - destruct (cycle_stops_at_display inp bmi df p pp l e H1 H2 H3 H4 H5 H6)
      as (shown & Hc & Hshown).
    eexists. split; [ exact Hc | ].
    rewrite !count_events_app.
    rewrite !(count_events_none _ shown); [ cbn; lia | .. ];
      (eapply Forall_impl; [ exact Hshown | ]); intros [] [? ?]; done.
Qed.

(** Conversely, the body ends with an exception only if a stage raised it. *)
Lemma cycle_raise_inv inp shown e :
  cycle inp = (shown, Raise e) → raises inp e.
Proof.
  unfold prediction_cycle.
  destruct (calculate_bmi (weight inp) (height inp)) as [ bmi | e1 ] eqn:H1;
    cbn [mbind comp_bind pure_step call emit app];
    [ | intros [= _ <-]; by apply raises_in_calculate_bmi ].
  destruct (select_columns (patient_record inp) expected_columns) as [ df | e2 ] eqn:H2;
    cbn [mbind comp_bind pure_step call emit app];
    [ | intros [= _ <-]; by eapply raises_in_assembly ].
  destruct (predict model df) as [ p | e3 ] eqn:H3;
    cbn [mbind comp_bind pure_step call emit app];
    [ | intros [= _ <-]; by eapply raises_in_predict ].
  destruct (predict_proba model df) as [ pp | e4 ] eqn:H4;
    cbn [mbind comp_bind pure_step call emit app];
    [ | intros [= _ <-]; by eapply raises_in_predict_proba ].
  destruct (inverse_transform label_encoder p) as [ l | e5 ] eqn:H5;
    cbn [mbind comp_bind pure_step call emit app];
    [ | intros [= _ <-]; by eapply raises_in_inverse_transform ].
  destruct (np_max pp) as [ mx | e6 ] eqn:H6;
    cbn [mbind comp_bind pure_step call emit app];
    [ | intros [= _ <-]; eapply raises_in_display; eauto ].
  destruct (prob_df _ _) as [ rows | e7 ] eqn:H7;
    cbn [mbind comp_bind pure_step call emit app];
    [ intros [= _] | intros [= _ <-] ].
  eapply raises_in_display; eauto. right. rewrite H6. split; [ by intros [] | done ].
Qed.

End cycle.

(** A run that finds the cache filled leaves it as it was. *)
Lemma run_script_keeps_cache store kept ix :
  (run_script store (Some kept) ix).2 = Some kept.
Proof.
  unfold run_script, cached_load_artifacts.
  destruct kept as [ [ [[[model label_encoder] expected_columns] categories] | ] shown ];
    [ | done ].
  by destruct (render_form categories).
Qed.

Lemma on_submit_raise model label_encoder expected_columns inp shown e :
  prediction_cycle model label_encoder expected_columns inp = (shown, Raise e) →
  on_submit model label_encoder expected_columns inp = shown ++ processing_error e.
Proof. intros H. unfold on_submit. by rewrite H. Qed.

(** The form's defaults, submitted to the sample artifacts: the three
    calls, then the result display. *)
Example default_submission :
  on_submit sample_model sample_encoder field_names default_inputs =
  [ CallPredict (patient_record default_inputs);
    CallPredictProba (patient_record default_inputs);
    CallInverseTransform 1;
    StText Success "✅ Predição concluída!";
    StMetric "BMI Calculado" (MFixed2 (70.0 / 1.70 ^ 2));
    StMetric "Categoria BMI" (MText "Peso normal");
    StMetric "Confiança da Predição" (MPercent1 100);
    StText Subheader "📋 Nível de Obesidade Previsto: **Peso Normal**";
    StText Subheader "📊 Probabilidades por Categoria";
    StBarChart
      [ ("Peso Normal", 100.0); ("Baixo Peso", 0.0); ("Sobrepeso Nível I", 0.0);
        ("Obesidade Tipo I", 0.0); ("Obesidade Tipo II", 0.0);
        ("Obesidade Tipo III", 0.0) ];
    StText Subheader "💡 Recomendações";
    StText Info (recommend "Peso Normal");
    StDownload "📥 Baixar Relatório" (patient_record default_inputs)
               "dados_paciente.csv" ].
Proof. by vm_compute. Qed.

(** A column order that names a column the record lacks: the [KeyError]
    is all the user sees of the submission. *)
Example missing_column_submission :
  on_submit sample_model sample_encoder [ "Gender"; "BMI"; "Age" ] default_inputs =
  [ StError "❌ Erro ao processar predição: " (KeyError [ "BMI" ]);
    StText Info "Verifique se todos os campos foram preenchidos corretamente." ].
Proof. by vm_compute. Qed.



(** C7. An exception raised by any stage of the prediction cycle (the bmi,
    the assembly of the record, a call of the model or of the encoder, the
    display of the result) is caught by the one handler: one error message
    that carries the exception and one hint to re-check the form follow what
    was shown before, nothing is tried again (each artifact was called at
    most once), the run goes on to the end of the page, and the cache, the
    only state a run hands to the next, is what it was. *)
Theorem prediction_failure_surfaced
    (model : Model) (label_encoder : LabelEncoder)
    (expected_columns : list string) (inp : RawInputs) (e : exn) :
  cycle_raises model label_encoder expected_columns inp e →
  ∃ shown,
    prediction_cycle model label_encoder expected_columns inp = (shown, Raise e) ∧
    on_submit model label_encoder expected_columns inp =
      shown ++ [ StError "❌ Erro ao processar predição: " e;
                 StText Info "Verifique se todos os campos foram preenchidos corretamente." ] ∧
    count_events is_error (on_submit model label_encoder expected_columns inp) = 1%nat ∧
    (count_events is_predict
       (on_submit model label_encoder expected_columns inp) ≤ 1)%nat ∧
    (count_events is_predict_proba
       (on_submit model label_encoder expected_columns inp) ≤ 1)%nat ∧
    (count_events is_inverse_transform
       (on_submit model label_encoder expected_columns inp) ≤ 1)%nat ∧
    ∀ store categories kept_shown form,
      render_form categories = Ok form →
      run_script store
        (Some (Some (model, label_encoder, expected_columns, categories), kept_shown))
        {| widgets := inp; submitted := true |} =
      (page_head ++ kept_shown
         ++ [ StText SidebarHeader "📊 Informações do Paciente"; form ]
         ++ on_submit model label_encoder expected_columns inp ++ page_foot,
       Some (Some (model, label_encoder, expected_columns, categories), kept_shown)).
Proof.
  intros Hraise.
  destruct (cycle_raises_outcome _ _ _ _ _ Hraise) as (shown & Hc & Hp & Hpp & Hit & Herr).
  exists shown. split; [ exact Hc | ].
  rewrite (on_submit_raise _ _ _ _ _ _ Hc). split; [ reflexivity | ].
  rewrite !count_events_app. cbn.
  repeat split; try lia.
  intros store categories kept_shown form Hform.
  unfold run_script, cached_load_artifacts. rewrite Hform. cbn [submitted widgets].
  rewrite (on_submit_raise _ _ _ _ _ _ Hc). reflexivity.
Qed.

Lemma prediction_failure_surfaced_witness :
  ∃ shown,
    on_submit failing_model sample_encoder field_names default_inputs =
      shown ++ [ StError "❌ Erro ao processar predição: "
                   (OtherException "ValueError" "malformed input");
                 StText Info "Verifique se todos os campos foram preenchidos corretamente." ].
Proof.
  assert (Hraise : cycle_raises failing_model sample_encoder field_names default_inputs
                     (OtherException "ValueError" "malformed input")).
  { eapply raises_in_predict; by vm_compute. }
  destruct (prediction_failure_surfaced _ _ _ _ _ Hraise) as (shown & _ & Hs & _).
  exists shown. exact Hs.
Defined.

(** ** Properties of the artifact store *)

Lemma load_artifacts_fails (store : ArtifactStore) :
  raised (modelo_obesidade_pkl store) ∨ raised (label_encoder_pkl store) ∨
  raised (expected_columns_pkl store) ∨ raised (categories_pkl store) →
  ∃ e, load_artifacts store = (None, [StError "Erro ao carregar arquivos: " e]).
Proof.
  unfold load_artifacts.
  destruct (modelo_obesidade_pkl store) as [ m | e1 ]; [ | by eexists ].
  destruct (label_encoder_pkl store) as [ le | e2 ]; [ | by eexists ].
  destruct (expected_columns_pkl store) as [ ec | e3 ]; [ | by eexists ].
  destruct (categories_pkl store) as [ cat | e4 ]; [ | by eexists ].
  cbn. tauto.
Qed.

Lemma load_artifacts_succeeds (store : ArtifactStore) model label_encoder expected_columns categories :
  modelo_obesidade_pkl store = Ok model →
  label_encoder_pkl store = Ok label_encoder →
  expected_columns_pkl store = Ok expected_columns →
  categories_pkl store = Ok categories →
  load_artifacts store = (Some (model, label_encoder, expected_columns, categories), []).
Proof. intros H1 H2 H3 H4. unfold load_artifacts. by rewrite H1, H2, H3, H4. Qed.

(** Once the load has failed, every run of the session shows the load error
    and stops. *)
Lemma halted_session (store : ArtifactStore) (e : exn) (ixs : list Interaction) :
  load_artifacts store = (None, [StError "Erro ao carregar arquivos: " e]) →
  ∀ cache,
    cache = None ∨ cache = Some (None, [StError "Erro ao carregar arquivos: " e]) →
    Forall (λ shown, shown = page_head ++ [StError "Erro ao carregar arquivos: " e; StStop])
           (run_session store cache ixs).
Proof.
  intros Hload. induction ixs as [ | ix ixs IH ]; intros cache Hcache; [ constructor | ].
  cbn [run_session]. unfold run_script, cached_load_artifacts.
  destruct Hcache as [ -> | -> ]; rewrite ?Hload;
    (constructor; [ reflexivity | apply IH; by right ]).
Qed.

Lemma run_session_length store cache ixs :
  length (run_session store cache ixs) = length ixs.
Proof.
  revert cache. induction ixs as [ | ix ixs IH ]; intros cache; [ done | ].
  cbn [run_session]. destruct (run_script store cache ix) as [shown cache'].
  cbn. by rewrite IH.
Qed.

(** C8. If the load of any of the four artifacts fails, then in every run
    of the session, the first and all later ones, whatever the interaction
    (and whether this session ran the load or found its outcome cached), the
    user is shown the load error and the script stops there: no form is
    rendered and neither the model nor the encoder is ever called. *)
Theorem load_failure_halts (store : ArtifactStore) :
  raised (modelo_obesidade_pkl store) ∨ raised (label_encoder_pkl store) ∨
  raised (expected_columns_pkl store) ∨ raised (categories_pkl store) →
  ∃ e,
    load_artifacts store = (None, [StError "Erro ao carregar arquivos: " e]) ∧
    ∀ cache ixs,
      cache = None ∨ cache = Some (load_artifacts store) →
      length (run_session store cache ixs) = length ixs ∧
      Forall (λ shown,
                shown = page_head ++ [StError "Erro ao carregar arquivos: " e; StStop] ∧
                count_events is_form shown = 0%nat ∧
                count_events is_model_call shown = 0%nat ∧
                last shown = Some StStop)
             (run_session store cache ixs).
Proof.
  intros Hfail. destruct (load_artifacts_fails store Hfail) as [e Hload].
  exists e. split; [ exact Hload | ]. intros cache ixs Hcache.
  split; [ apply run_session_length | ].
  eapply Forall_impl;
    [ apply (halted_session store e ixs Hload); by rewrite <- Hload | ].
  intros shown ->. by cbn.
Qed.

Lemma load_failure_halts_witness :
  ∃ e,
    Forall (λ shown,
              shown = page_head ++ [StError "Erro ao carregar arquivos: " e; StStop] ∧
              count_events is_form shown = 0%nat ∧
              count_events is_model_call shown = 0%nat ∧
              last shown = Some StStop)
           (run_session broken_store None
              [ {| widgets := default_inputs; submitted := false |};
                {| widgets := default_inputs; submitted := true |} ]).
Proof.
  assert (Hfail : raised (modelo_obesidade_pkl broken_store) ∨
                  raised (label_encoder_pkl broken_store) ∨
                  raised (expected_columns_pkl broken_store) ∨
                  raised (categories_pkl broken_store))
    by (do 3 right; exact I).
  destruct (load_failure_halts broken_store Hfail) as (e & _ & Hruns).
  exists e. apply Hruns. by left.
Defined.

(** * Further properties of the code *)

(** ** The label tables *)

(** Translating twice is translating once: a localized name is no English
    key.  A translation is a localized name exactly for the six English
    labels and the six localized names themselves, and no two English labels
    share a translation. *)
Theorem translate_idempotent (label : string) :
  translate (translate label) = translate label ∧
  (translate label ∈ localized_labels ↔
     label ∈ english_labels ∨ label ∈ localized_labels) ∧
  (∀ other, label ∈ english_labels → other ∈ english_labels →
            translate label = translate other → label = other).
Proof.
  assert (Hcases : ∀ l, l ∈ english_labels →
            l = "Insufficient_Weight" ∨ l = "Normal_Weight" ∨
            l = "Overweight_Level_I" ∨ l = "Obesity_Type_I" ∨
            l = "Obesity_Type_II" ∨ l = "Obesity_Type_III").
  { intros l. unfold english_labels.
    cbn [fmap list_fmap label_translation_items fst].
    rewrite !elem_of_cons, elem_of_nil. tauto. }
  destruct (decide (label ∈ english_labels)) as [Hin | Hout].
  - split; [ | split ].
    + apply Hcases in Hin.
      repeat destruct Hin as [ -> | Hin ]; try subst label; by vm_compute.
    + split; [ by left | intros _ ].
      apply Hcases in Hin.
      repeat destruct Hin as [ -> | Hin ]; try subst label; vm_compute;
        repeat first [ apply list_elem_of_here | apply list_elem_of_further ].
    + intros other _ Ho. apply Hcases in Hin. apply Hcases in Ho.
      repeat destruct Hin as [ -> | Hin ]; try subst label;
        repeat destruct Ho as [ -> | Ho ]; try subst other;
        vm_compute; intros Heq; first [ reflexivity | discriminate Heq ].
  - rewrite !(translate_unknown label Hout).
    split; [ reflexivity | ]. split; [ tauto | done ].
Qed.

(** The index table [obesity_labels] (lines 46-53) has the indices 0 to 5,
    and its label at each index is an English label that the translation
    table knows and whose recommendation is not the generic one. *)
Theorem obesity_labels_translated (i : Z) (label : string) :
  obesity_labels !! i = Some label →
  (0 ≤ i ≤ 5)%Z ∧
  english_labels !! Z.to_nat i = Some label ∧
  is_Some (label_translation !! label) ∧
  recommend (translate label) ≠ fallback_recommendation.
Proof.
  unfold obesity_labels. intros H%elem_of_list_to_map_2.
  revert H. rewrite !elem_of_cons, elem_of_nil. intros H.
  repeat destruct H as [ [= -> ->] | H ]; [ .. | done ];
    (split; [ lia | ]); (split; [ by vm_compute | ]);
    (split; [ by vm_compute; eexists | ]);
    vm_compute; intros Heq; discriminate Heq.
Qed.

Lemma obesity_labels_translated_witness :
  english_labels !! 4%nat = Some "Obesity_Type_II" ∧
  recommend (translate "Obesity_Type_II") ≠ fallback_recommendation.
Proof.
  assert (H : obesity_labels !! 4%Z = Some "Obesity_Type_II") by (by vm_compute).
  destruct (obesity_labels_translated 4 "Obesity_Type_II" H) as (_ & H1 & _ & H2).
  split; [ exact H1 | exact H2 ].
Defined.

(** ** The derived-feature calculator *)

Lemma bucket_at (i : nat) (bmi : Q) :
  category <$> bmi_buckets !! i = Some (classify_bmi bmi) →
  (i = 0%nat ∧ bmi < 18.5) ∨ (i = 1%nat ∧ 18.5 <= bmi ∧ bmi < 25) ∨
  (i = 2%nat ∧ 25 <= bmi ∧ bmi < 30) ∨ (i = 3%nat ∧ 30 <= bmi ∧ bmi < 35) ∨
  (i = 4%nat ∧ 35 <= bmi ∧ bmi < 40) ∨ (i = 5%nat ∧ 40 <= bmi).
Proof.
  intros H.
  destruct (bmi_buckets !! i) as [ b | ] eqn:Hb; [ | discriminate H ].
  injection H as H. symmetry in H.
  apply classify_bmi_bucket in H; [ | by eapply list_elem_of_lookup_2 ].
  do 6 (destruct i as [ | i ]; [ injection Hb as <-; unfold in_bucket in H;
                                 cbn in H; tauto | ]).
  discriminate Hb.
Qed.

(** The buckets are ordered: a larger bmi never falls in an earlier bucket,
    and two rationals that are equal as numbers get the same category. *)
Theorem classify_bmi_monotone (bmi1 bmi2 : Q) :
  bmi1 <= bmi2 →
  (∀ i j, category <$> bmi_buckets !! i = Some (classify_bmi bmi1) →
          category <$> bmi_buckets !! j = Some (classify_bmi bmi2) →
          (i ≤ j)%nat) ∧
  (bmi2 <= bmi1 → classify_bmi bmi1 = classify_bmi bmi2).
Proof.
  intros Hle. split.
  - intros i j Hi%bucket_at Hj%bucket_at.
    destruct Hi as [ [-> Hi] | [ [-> Hi] | [ [-> Hi] | [ [-> Hi] | [ [-> Hi] | [-> Hi] ] ] ] ] ];
      destruct Hj as [ [-> Hj] | [ [-> Hj] | [ [-> Hj] | [ [-> Hj] | [ [-> Hj] | [-> Hj] ] ] ] ] ];
      first [ lia | exfalso; lra ].
  - intros Hge. unfold classify_bmi.
    repeat (destruct (Qlt_le_dec _ _)); first [ reflexivity | exfalso; lra ].
Qed.

Lemma classify_bmi_monotone_witness :
  category <$> bmi_buckets !! 1%nat = Some (classify_bmi 24.9) ∧
  category <$> bmi_buckets !! 3%nat = Some (classify_bmi 31) ∧
  (1 ≤ 3)%nat.
Proof.
  assert (H : 24.9 <= 31) by (by vm_compute).
  assert (H1 : category <$> bmi_buckets !! 1%nat = Some (classify_bmi 24.9))
    by (by vm_compute).
  assert (H3 : category <$> bmi_buckets !! 3%nat = Some (classify_bmi 31))
    by (by vm_compute).
  split; [ exact H1 | ]. split; [ exact H3 | ].
  exact (proj1 (classify_bmi_monotone 24.9 31 H) 1%nat 3%nat H1 H3).
Defined.

(** Within the form's bounds the bmi grows with the weight and shrinks with
    the height: a weight that is not less over a height that is not more
    gives a bmi that is not less. *)
Theorem calculate_bmi_monotone (w1 w2 h1 h2 : Q) :
  30 <= w1 → w1 <= w2 → w2 <= 300 →
  1 <= h1 → h1 <= h2 → h2 <= 2.5 →
  ∃ lo hi, calculate_bmi w1 h2 = Ok lo ∧ calculate_bmi w2 h1 = Ok hi ∧ lo <= hi.
Proof.
  intros Hw0 Hw Hw1 Hh0 Hh Hh1.
  exists (w1 / h2 ^ 2), (w2 / h1 ^ 2).
  split; [ apply calculate_bmi_returns; lra | ].
  split; [ apply calculate_bmi_returns; lra | ].
  rewrite !square_unfold.
  assert (H1 : 0 < h1 * h1) by nra.
  assert (H2 : h1 * h1 <= h2 * h2) by nra.
  apply Qle_shift_div_l; [ lra | ].
  unfold Qdiv. rewrite <- Qmult_assoc, (Qmult_comm (/ _)), Qmult_assoc.
  apply Qle_shift_div_r; [ lra | ]. nra.
Qed.

Lemma calculate_bmi_monotone_witness :
  ∃ lo hi, calculate_bmi 70.0 1.80 = Ok lo ∧ calculate_bmi 80.0 1.70 = Ok hi ∧ lo <= hi.
Proof.
  apply (calculate_bmi_monotone 70.0 80.0 1.70 1.80); by vm_compute.
Defined.

Lemma abs_cases (h : float) : abs h = h ∨ abs h = (- h)%float.
Proof.
  destruct (Prim2SF h) as [ [] | [] | | [] m e ] eqn:E;
    [ right | left | right | left | left | right | left ];
    apply Prim2SF_inj; by rewrite abs_spec, ?opp_spec, E.
Qed.

(** The sign of the height is not checked, on the machine's floats and
    whatever C's [pow] returns: a height, its negative and its absolute
    value give the same bmi or raise the same exception. *)
Theorem calculate_bmi_negative_height
    (libm_pow : float → float * errno) (w h : float) :
  calculate_bmi_binary64 libm_pow w (- h) = calculate_bmi_binary64 libm_pow w h ∧
  calculate_bmi_binary64 libm_pow w (abs h) = calculate_bmi_binary64 libm_pow w h.
Proof.
  assert (Hopp : calculate_bmi_binary64 libm_pow w (- h) =
                 calculate_bmi_binary64 libm_pow w h)
    by (unfold calculate_bmi_binary64; by rewrite float_pow2_opp).
  split; [ exact Hopp | ].
  destruct (abs_cases h) as [ -> | -> ]; [ reflexivity | exact Hopp ].
Qed.

Lemma form_values_bmi_witness :
  ∃ bmi, calculate_bmi (weight default_inputs) (height default_inputs) = Ok bmi ∧
         4.8 <= bmi ∧ bmi <= 300.
Proof.
  apply (form_values_bmi sample_categories default_inputs).
  unfold form_values, default_inputs. cbn.
  repeat split; try (by vm_compute);
    repeat first [ apply list_elem_of_here | apply list_elem_of_further ].
Defined.

(** ** The helpers of the result display *)

Lemma foldl_max_spec (xs : list Q) (a : Q) :
  let m := foldl (λ a b, if Qlt_le_dec a b then b else a) a xs in
  (m = a ∨ m ∈ xs) ∧ a <= m ∧ Forall (λ x, x <= m) xs.
Proof.
  revert a. induction xs as [ | x xs IH ]; intros a; cbn.
  - split; [ by left | ]. split; [ lra | constructor ].
  - destruct (Qlt_le_dec a x) as [ Hlt | Hge ].
    + destruct (IH x) as (Hm & Hle & Hall). cbn in Hm, Hle, Hall.
      split; [ right; destruct Hm as [ -> | Hm ]; [ left | by right ] | ].
      split; [ lra | ]. by constructor.
    + destruct (IH a) as (Hm & Hle & Hall). cbn in Hm, Hle, Hall.
      split; [ destruct Hm as [ Hm | Hm ]; [ by left | right; by right ] | ].
      split; [ exact Hle | ]. constructor; [ lra | exact Hall ].
Qed.

Lemma np_max_Ok (xs : list Q) (m : Q) :
  np_max xs = Ok m → m ∈ xs ∧ Forall (λ x, x <= m) xs.
Proof.
  destruct xs as [ | x xs ]; cbn; [ intros [=] | intros [= <-] ].
  destruct (foldl_max_spec xs x) as (Hm & Hle & Hall). cbn in Hm, Hle, Hall.
  split; [ destruct Hm as [ -> | Hm ]; [ left | by right ] | by constructor ].
Qed.

(** [np.max] raises only on the empty array; otherwise its result is an
    element of the array and no element exceeds it. *)
Theorem np_max_greatest (xs : list Q) :
  match np_max xs with
  | Ok m => m ∈ xs ∧ Forall (λ x, x <= m) xs
  | Raise e => xs = [] ∧ ∃ msg, e = ValueError msg
  end.
Proof.
  destruct xs as [ | x xs ]; cbn; [ split; [ done | by eexists ] | ].
  destruct (foldl_max_spec xs x) as (Hm & Hle & Hall). cbn in Hm, Hle, Hall.
  split.
  - destruct Hm as [ -> | Hm ]; [ left | by right ].
  - by constructor.
Qed.

Local Abbreviation falling := (λ r r' : string * Q, r'.2 <= r.2).

Lemma insert_row_perm (r : string * Q) (rows : list (string * Q)) :
  insert_row r rows ≡ₚ r :: rows.
Proof.
  induction rows as [ | r' rows IH ]; cbn [insert_row]; [ done | ].
  destruct (Qlt_le_dec _ _); [ | done ].
  rewrite IH. apply Permutation_swap.
Qed.

Lemma insert_row_sorted (r : string * Q) (rows : list (string * Q)) :
  StronglySorted falling rows → StronglySorted falling (insert_row r rows).
Proof.
  induction rows as [ | r' rows IH ]; cbn [insert_row].
  - intros _. by repeat constructor.
  - intros [Hall Hs]%StronglySorted_cons.
    destruct (Qlt_le_dec _ _) as [ Hlt | Hle ].
    + apply StronglySorted_cons. split; [ | by apply IH ].
      rewrite insert_row_perm. constructor; [ cbn; lra | done ].
    + apply StronglySorted_cons. split; [ | by apply StronglySorted_cons ].
      constructor; [ done | ].
      eapply Forall_impl; [ exact Hall | ]. cbn. intros x Hx. lra.
Qed.

Lemma sort_values_perm (rows : list (string * Q)) : sort_values rows ≡ₚ rows.
Proof.
  unfold sort_values. induction rows as [ | r rows IH ]; [ done | ].
  cbn [foldr]. by rewrite insert_row_perm, IH.
Qed.

Lemma sort_values_sorted (rows : list (string * Q)) :
  StronglySorted falling (sort_values rows).
Proof.
  unfold sort_values. induction rows as [ | r rows IH ]; [ constructor | ].
  cbn [foldr]. by apply insert_row_sorted.
Qed.

Lemma prob_df_Ok (categoria : list string) (probabilidade : list Q)
    (rows : list (string * Q)) :
  prob_df categoria probabilidade = Ok rows →
  length categoria = length probabilidade ∧
  rows ≡ₚ zip categoria probabilidade ∧
  StronglySorted falling rows.
Proof.
  unfold prob_df. case_decide as Hlen; [ intros [= <-] | intros [=] ].
  split; [ done | ]. split; [ apply sort_values_perm | apply sort_values_sorted ].
Qed.

(** The chart's frame is built only from two columns of one length.  Its
    rows are then the pairs of a class and its percentage, each pair once,
    in the order of falling percentage: no row has a greater percentage
    than a row before it. *)
Theorem prob_df_rows (categoria : list string) (probabilidade : list Q) :
  match prob_df categoria probabilidade with
  | Ok rows =>
      length categoria = length probabilidade ∧
      rows ≡ₚ zip categoria probabilidade ∧
      rows.*1 ≡ₚ categoria ∧ rows.*2 ≡ₚ probabilidade ∧
      StronglySorted (λ r r', r'.2 <= r.2) rows ∧
      ∀ i j r r', (i < j)%nat → rows !! i = Some r → rows !! j = Some r' →
                  r'.2 <= r.2
  | Raise e => length categoria ≠ length probabilidade ∧ ∃ msg, e = ValueError msg
  end.
Proof.
  destruct (prob_df categoria probabilidade) as [ rows | e ] eqn:E.
  - apply prob_df_Ok in E as (Hlen & Hperm & Hsorted).
    split; [ done | ]. split; [ done | ].
    split; [ rewrite Hperm, fst_zip; [ done | lia ] | ].
    split; [ rewrite Hperm, snd_zip; [ done | lia ] | ].
    split; [ done | ].
    intros i j r r' Hij Hi Hj.
    apply lookup_lt_Some in Hj as Hjlt.
    rewrite <- (take_drop_middle rows i r Hi) in Hsorted, Hj.
    apply StronglySorted_app_1_r in Hsorted.
    apply StronglySorted_cons in Hsorted as [Hall _].
    rewrite Forall_forall in Hall. apply Hall.
    rewrite lookup_app_r in Hj by (rewrite length_take; lia).
    rewrite length_take in Hj.
    replace (j - i `min` length rows)%nat with (S (j - S i)) in Hj by lia.
    by eapply list_elem_of_lookup_2.
  - unfold prob_df in E. case_decide as Hlen; [ discriminate E | ].
    injection E as <-. split; [ done | by eexists ].
Qed.

(** ** The record assembler *)

(** Selecting the columns a frame has, in the order it has them, returns the
    frame itself, provided no column name occurs twice. *)
Theorem select_columns_identity (df : DataFrame) :
  NoDup (columns df) → select_columns df (columns df) = Ok df.
Proof.
  intros Hnd. rewrite select_columns_Ok by done.
  f_equal. by apply select_own_columns.
Qed.

Lemma select_columns_identity_witness :
  select_columns (patient_record default_inputs) field_names =
  Ok (patient_record default_inputs).
Proof.
  apply (select_columns_identity (patient_record default_inputs)).
  apply (bool_decide_unpack _). by vm_compute.
Defined.

Lemma columns_named_selected (df : DataFrame) (cols : list string) (c : string) :
  NoDup cols → c ∈ cols →
  columns_named c (cols ≫= λ c, columns_named c df) = columns_named c df.
Proof.
  assert (Hblock : ∀ c', columns_named c (columns_named c' df) =
                         if decide (c' = c) then columns_named c df else []).
  { intros c'. unfold columns_named. case_decide as Hc.
    - subst c'. apply list_filter_filter_l. done.
    - apply (columns_named_absent c (filter _ df)).
      rewrite elem_of_columns. intros (v & [H0 _]%elem_of_columns_named). done. }
  assert (Hout : ∀ cols', c ∉ cols' →
            columns_named c (cols' ≫= λ c, columns_named c df) = []).
  { induction cols' as [ | c0 cols' IH ]; intros Hc; [ done | ].
    apply not_elem_of_cons in Hc as [Hne Hc].
    rewrite bind_cons. unfold columns_named at 1. rewrite filter_app.
    fold (columns_named c (columns_named c0 df)).
    fold (columns_named c (cols' ≫= λ c, columns_named c df)).
    rewrite Hblock, decide_False, (IH Hc); done. }
  induction cols as [ | c0 cols IH ]; intros Hnd Hin; [ by apply elem_of_nil in Hin | ].
  apply NoDup_cons in Hnd as [Hc0 Hnd].
  rewrite bind_cons. unfold columns_named at 1. rewrite filter_app.
  fold (columns_named c (columns_named c0 df)).
  fold (columns_named c (cols ≫= λ c, columns_named c df)).
  rewrite Hblock. case_decide as Hc.
  - subst c0. rewrite (Hout cols Hc0). apply app_nil_r.
  - apply elem_of_cons in Hin as [ -> | Hin ]; [ done | ].
    by rewrite (IH Hnd Hin).
Qed.

(** Selecting from a selection is selecting from the frame: when the first
    list names no label twice and the second list is drawn from it, both
    give the same frame. *)
Theorem select_columns_compose (df r : DataFrame) (cols1 cols2 : list string) :
  NoDup cols1 →
  select_columns df cols1 = Ok r →
  cols2 ⊆ cols1 →
  select_columns r cols2 = select_columns df cols2.
Proof.
  intros Hnd [Hsub1 ->]%select_columns_Ok_inv Hsub2.
  assert (Hsub : cols2 ⊆ columns df) by (intros c Hc; by apply Hsub1, Hsub2).
  rewrite (select_columns_Ok df cols2 Hsub).
  rewrite select_columns_Ok.
  - f_equal. apply bind_ext_in. intros c Hc.
    apply columns_named_selected; [ done | by apply Hsub2 ].
  - intros c Hc. apply elem_of_columns.
    destruct (proj1 (elem_of_columns c df) (Hsub c Hc)) as [v Hv].
    exists v. apply elem_of_selected. split; [ by apply Hsub2 | done ].
Qed.

Lemma select_columns_compose_witness :
  ∃ r, select_columns (patient_record default_inputs) [ "Weight"; "Age"; "Height" ] = Ok r ∧
       select_columns r [ "Height"; "Weight" ] =
       select_columns (patient_record default_inputs) [ "Height"; "Weight" ].
Proof.
  eexists. split; [ by vm_compute | ].
  apply (select_columns_compose (patient_record default_inputs) _
           [ "Weight"; "Age"; "Height" ] [ "Height"; "Weight" ]).
  - apply (bool_decide_unpack _). by vm_compute.
  - by vm_compute.
  - intros c. rewrite !elem_of_cons, !elem_of_nil. tauto.
Defined.

(** Nothing of the form is lost in the frame handed to the model: when the
    column order names every field, two submissions with the same reordered
    frame had the same sixteen values. *)
Theorem reordered_record_injective
    (expected_columns : list string) (inp inp' : RawInputs) (df : DataFrame) :
  field_names ⊆ expected_columns →
  select_columns (patient_record inp) expected_columns = Ok df →
  select_columns (patient_record inp') expected_columns = Ok df →
  inp = inp'.
Proof.
  intros Hall [Hsub ->]%select_columns_Ok_inv [Hsub' Heq]%select_columns_Ok_inv.
  assert (Hcell : ∀ c, c ∈ field_names →
            get_cell c (patient_record inp) = get_cell c (patient_record inp')).
  { intros c Hc%Hall.
    rewrite <- (selected_cell (patient_record inp) expected_columns c Hc).
    rewrite <- (selected_cell (patient_record inp') expected_columns c Hc).
    by rewrite Heq. }
  assert (Hin : ∀ i c, field_names !! i = Some c → c ∈ field_names)
    by (intros i c; apply list_elem_of_lookup_2).
  pose proof (Hcell _ (Hin 0%nat _ eq_refl)) as H0.
  pose proof (Hcell _ (Hin 1%nat _ eq_refl)) as H1.
  pose proof (Hcell _ (Hin 2%nat _ eq_refl)) as H2.
  pose proof (Hcell _ (Hin 3%nat _ eq_refl)) as H3.
  pose proof (Hcell _ (Hin 4%nat _ eq_refl)) as H4.
  pose proof (Hcell _ (Hin 5%nat _ eq_refl)) as H5.
  pose proof (Hcell _ (Hin 6%nat _ eq_refl)) as H6.
  pose proof (Hcell _ (Hin 7%nat _ eq_refl)) as H7.
  pose proof (Hcell _ (Hin 8%nat _ eq_refl)) as H8.
  pose proof (Hcell _ (Hin 9%nat _ eq_refl)) as H9.
  pose proof (Hcell _ (Hin 10%nat _ eq_refl)) as H10.
  pose proof (Hcell _ (Hin 11%nat _ eq_refl)) as H11.
  pose proof (Hcell _ (Hin 12%nat _ eq_refl)) as H12.
  pose proof (Hcell _ (Hin 13%nat _ eq_refl)) as H13.
  pose proof (Hcell _ (Hin 14%nat _ eq_refl)) as H14.
  pose proof (Hcell _ (Hin 15%nat _ eq_refl)) as H15.
  clear Hcell Hin Heq Hsub Hsub' Hall.
  destruct inp, inp'. cbn in *.
  injection H0 as ->. injection H1 as H1. injection H2 as ->. injection H3 as ->.
  injection H4 as ->. injection H5 as ->. injection H6 as ->. injection H7 as ->.
  injection H8 as ->. injection H9 as ->. injection H10 as ->. injection H11 as ->.
  injection H12 as ->. injection H13 as ->. injection H14 as ->. injection H15 as ->.
  by subst.
Qed.

Lemma reordered_record_injective_witness :
  select_columns (patient_record default_inputs) field_names =
    Ok (patient_record default_inputs) ∧
  default_inputs = default_inputs.
Proof.
  assert (H : select_columns (patient_record default_inputs) field_names =
              Ok (patient_record default_inputs)) by (by vm_compute).
  split; [ exact H | ].
  exact (reordered_record_injective field_names default_inputs default_inputs
           (patient_record default_inputs) (λ c Hc, Hc) H H).
Defined.

(** ** The prediction cycle *)

Section submission.

Variable model : Model.
Variable label_encoder : LabelEncoder.
Variable expected_columns : list string.

Local Abbreviation cycle := (prediction_cycle model label_encoder expected_columns).
Local Abbreviation raises := (cycle_raises model label_encoder expected_columns).

(** The body returns exactly when every stage returned, and then it has
    made the three calls and shown the result. *)
Lemma cycle_returns_inv inp shown :
  cycle inp = (shown, Ok tt) →
  ∃ bmi input_data prediction prediction_proba prediction_label max_prob rows,
    calculate_bmi (weight inp) (height inp) = Ok bmi ∧
    select_columns (patient_record inp) expected_columns = Ok input_data ∧
    predict model input_data = Ok prediction ∧
    predict_proba model input_data = Ok prediction_proba ∧
    inverse_transform label_encoder prediction = Ok prediction_label ∧
    np_max prediction_proba = Ok max_prob ∧
    prob_df (translate <$> classes_ label_encoder)
            ((λ p, round1 (p * 100)) <$> prediction_proba) = Ok rows ∧
    shown = calls_made input_data prediction
              ++ result_display bmi input_data max_prob
                   (translate prediction_label) rows.
Proof.
  unfold prediction_cycle.
  destruct (calculate_bmi (weight inp) (height inp)) as [ bmi | e1 ] eqn:H1;
    cbn [mbind comp_bind pure_step call emit app]; [ | intros [=] ].
  destruct (select_columns (patient_record inp) expected_columns) as [ df | e2 ] eqn:H2;
    cbn [mbind comp_bind pure_step call emit app]; [ | intros [=] ].
  destruct (predict model df) as [ p | e3 ] eqn:H3;
    cbn [mbind comp_bind pure_step call emit app]; [ | intros [=] ].
  destruct (predict_proba model df) as [ pp | e4 ] eqn:H4;
    cbn [mbind comp_bind pure_step call emit app]; [ | intros [=] ].
  destruct (inverse_transform label_encoder p) as [ l | e5 ] eqn:H5;
    cbn [mbind comp_bind pure_step call emit app]; [ | intros [=] ].
  destruct (np_max pp) as [ mx | e6 ] eqn:H6;
    cbn [mbind comp_bind pure_step call emit app]; [ | intros [=] ].
  destruct (prob_df _ _) as [ rows | e7 ] eqn:H7;
    cbn [mbind comp_bind pure_step call emit app]; [ | intros [=] ].
  intros [= <-]. by exists bmi, df, p, pp, l, mx, rows.
Qed.

Lemma cycle_outcome inp :
  (∃ shown, cycle inp = (shown, Ok tt)) ∨
  (∃ shown e, cycle inp = (shown, Raise e)).
Proof.
  destruct (cycle inp) as [ shown [ [] | e ] ]; [ left | right ]; by eauto.
Qed.

(** Before an exception nothing is offered for download. *)
Lemma cycle_raises_no_download inp shown e :
  cycle inp = (shown, Raise e) → count_events is_download shown = 0%nat.
Proof.
  unfold prediction_cycle.
  destruct (calculate_bmi (weight inp) (height inp)) as [ bmi | e1 ];
    cbn [mbind comp_bind pure_step call emit app]; [ | by intros [= <- _] ].
  destruct (select_columns (patient_record inp) expected_columns) as [ df | e2 ];
    cbn [mbind comp_bind pure_step call emit app]; [ | by intros [= <- _] ].
  destruct (predict model df) as [ p | e3 ];
    cbn [mbind comp_bind pure_step call emit app]; [ | by intros [= <- _] ].
  destruct (predict_proba model df) as [ pp | e4 ];
    cbn [mbind comp_bind pure_step call emit app]; [ | by intros [= <- _] ].
  destruct (inverse_transform label_encoder p) as [ l | e5 ];
    cbn [mbind comp_bind pure_step call emit app]; [ | by intros [= <- _] ].
  destruct (np_max pp) as [ mx | e6 ];
    cbn [mbind comp_bind pure_step call emit app]; [ | by intros [= <- _] ].
  destruct (prob_df _ _) as [ rows | e7 ];
    cbn [mbind comp_bind pure_step call emit app]; [ intros [=] | by intros [= <- _] ].
Qed.

End submission.

(** A submission ends in one of two ways.  Either every stage returned: no
    error is shown, each artifact was called exactly once, and the last
    thing shown is the download of the frame the model was given, which is
    the reordered record.  Or a stage raised: exactly one error is shown,
    followed by the hint, and no download is offered. *)
Theorem submission_result_or_error
    (model : Model) (label_encoder : LabelEncoder)
    (expected_columns : list string) (inp : RawInputs) :
  (count_events is_error (on_submit model label_encoder expected_columns inp) = 0%nat ∧
   count_events is_download (on_submit model label_encoder expected_columns inp) = 1%nat ∧
   count_events is_predict (on_submit model label_encoder expected_columns inp) = 1%nat ∧
   count_events is_predict_proba (on_submit model label_encoder expected_columns inp) = 1%nat ∧
   count_events is_inverse_transform
     (on_submit model label_encoder expected_columns inp) = 1%nat ∧
   ∃ input_data,
     select_columns (patient_record inp) expected_columns = Ok input_data ∧
     head (on_submit model label_encoder expected_columns inp) =
       Some (CallPredict input_data) ∧
     last (on_submit model label_encoder expected_columns inp) =
       Some (StDownload "📥 Baixar Relatório" input_data "dados_paciente.csv"))
  ∨
  (count_events is_error (on_submit model label_encoder expected_columns inp) = 1%nat ∧
   count_events is_download (on_submit model label_encoder expected_columns inp) = 0%nat ∧
   ∃ e shown,
     cycle_raises model label_encoder expected_columns inp e ∧
     on_submit model label_encoder expected_columns inp =
       shown ++ [ StError "❌ Erro ao processar predição: " e;
                  StText Info "Verifique se todos os campos foram preenchidos corretamente." ]).
Proof.
  destruct (cycle_outcome model label_encoder expected_columns inp)
    as [ (shown & Hc) | (shown & e & Hc) ].
  - left.
    destruct (cycle_returns_inv _ _ _ _ _ Hc)
      as (bmi & df & p & pp & l & mx & rows & H1 & H2 & H3 & H4 & H5 & H6 & H7 & ->).
    unfold on_submit, try_except. rewrite Hc.
    repeat (split; [ reflexivity | ]).
    exists df. by repeat split.
  - right.
    pose proof (cycle_raise_inv _ _ _ _ _ _ Hc) as Hr.
    destruct (cycle_raises_outcome _ _ _ _ _ Hr) as (shown' & Hc' & _ & _ & _ & Herr).
    rewrite Hc in Hc'. injection Hc' as <-.
    rewrite (on_submit_raise _ _ _ _ _ _ Hc), !count_events_app.
    rewrite Herr, (cycle_raises_no_download _ _ _ _ _ _ Hc).
    split; [ reflexivity | ]. split; [ reflexivity | ].
    by exists e, shown.
Qed.



(** The artifacts are called in one order and on one frame: what a
    submission asks of them is an initial part of predict, predict_proba,
    inverse_transform; the frame of both model calls is the reordered record
    and the index decoded is the one predict returned. *)
Theorem model_calls_in_order
    (model : Model) (label_encoder : LabelEncoder)
    (expected_columns : list string) (inp : RawInputs) :
  List.filter is_model_call (on_submit model label_encoder expected_columns inp) = [] ∨
  ∃ input_data,
    select_columns (patient_record inp) expected_columns = Ok input_data ∧
    ¬ raised (calculate_bmi (weight inp) (height inp)) ∧
    (List.filter is_model_call (on_submit model label_encoder expected_columns inp) =
       [ CallPredict input_data ] ∧ raised (predict model input_data)
     ∨
     ∃ prediction,
       predict model input_data = Ok prediction ∧
       (List.filter is_model_call (on_submit model label_encoder expected_columns inp) =
          [ CallPredict input_data; CallPredictProba input_data ] ∧
        raised (predict_proba model input_data)
        ∨
        List.filter is_model_call (on_submit model label_encoder expected_columns inp) =
          calls_made input_data prediction ∧
        ¬ raised (predict_proba model input_data))).
Proof.
  unfold on_submit, try_except, prediction_cycle.
  destruct (calculate_bmi (weight inp) (height inp)) as [ bmi | e1 ];
    cbn [mbind comp_bind pure_step call emit app]; [ | by left ].
  destruct (select_columns (patient_record inp) expected_columns) as [ df | e2 ];
    cbn [mbind comp_bind pure_step call emit app]; [ | by left ].
  right. exists df. split; [ done | ]. split; [ by intros [] | ].
  destruct (predict model df) as [ p | e3 ];
    cbn [mbind comp_bind pure_step call emit app]; [ | by left ].
  right. exists p. split; [ done | ].
  destruct (predict_proba model df) as [ pp | e4 ];
    cbn [mbind comp_bind pure_step call emit app]; [ | by left ].
  right. split; [ | by intros [] ].
  destruct (inverse_transform label_encoder p) as [ l | e5 ];
    cbn [mbind comp_bind pure_step call emit app]; [ | done ].
  destruct (np_max pp) as [ mx | e6 ];
    cbn [mbind comp_bind pure_step call emit app]; [ | done ].
  destruct (prob_df _ _) as [ rows | e7 ];
    cbn [mbind comp_bind pure_step call emit app]; done.
Qed.

(** A form within its bounds, with a column order drawn from the record's
    fields, always reaches the model: the bmi is computed, the record is
    reordered, and the first thing the submission does is to call predict on
    the reordered record. *)
Theorem form_submission_reaches_model
    (model : Model) (label_encoder : LabelEncoder)
    (expected_columns : list string)
    (categories : gmap string (list string)) (inp : RawInputs) :
  form_values categories inp →
  expected_columns ⊆ field_names →
  ∃ input_data,
    select_columns (patient_record inp) expected_columns = Ok input_data ∧
    columns input_data = expected_columns ∧
    head (on_submit model label_encoder expected_columns inp) =
      Some (CallPredict input_data) ∧
    ¬ raised (calculate_bmi (weight inp) (height inp)).
Proof.
  intros (_ & Hh1 & _) Hsub.
  assert (Hbmi : calculate_bmi (weight inp) (height inp) =
                 Ok (weight inp / height inp ^ 2))
    by (apply calculate_bmi_returns; lra).
  pose proof (select_columns_Ok (patient_record inp) expected_columns Hsub) as Hsel.
  eexists. split; [ exact Hsel | ].
  split; [ apply selected_columns; [ apply field_names_NoDup | done ] | ].
  split.
  - unfold on_submit, try_except, prediction_cycle.
    rewrite Hbmi. cbn [mbind comp_bind pure_step call emit app].
    rewrite Hsel. cbn [mbind comp_bind pure_step call emit app].
    destruct (predict model _) as [ p | e3 ];
      cbn [mbind comp_bind pure_step call emit app]; [ | done ].
    destruct (predict_proba model _) as [ pp | e4 ];
      cbn [mbind comp_bind pure_step call emit app]; [ | done ].
    destruct (inverse_transform label_encoder p) as [ l | e5 ];
      cbn [mbind comp_bind pure_step call emit app]; [ | done ].
    destruct (np_max pp) as [ mx | e6 ];
      cbn [mbind comp_bind pure_step call emit app]; [ | done ].
    destruct (prob_df _ _) as [ rows | e7 ];
      cbn [mbind comp_bind pure_step call emit app]; done.
  - rewrite Hbmi. by intros [].
Qed.

Lemma form_submission_reaches_model_witness :
  head (on_submit failing_model sample_encoder field_names default_inputs) =
    Some (CallPredict (patient_record default_inputs)).
Proof.
  assert (Hform : form_values sample_categories default_inputs).
  { unfold form_values, default_inputs. cbn.
    repeat split; try (by vm_compute);
      repeat first [ apply list_elem_of_here | apply list_elem_of_further ]. }
  destruct (form_submission_reaches_model failing_model sample_encoder field_names
              sample_categories default_inputs Hform (λ c Hc, Hc))
    as (df & Hsel & _ & Hhead & _).
  assert (Hdf : select_columns (patient_record default_inputs) field_names =
                Ok (patient_record default_inputs)) by (by vm_compute).
  rewrite Hdf in Hsel. injection Hsel as <-. exact Hhead.
Defined.

(** ** The script and the session *)

Lemma load_artifacts_cases (store : ArtifactStore) :
  (∃ loaded, load_artifacts store = (Some loaded, [])) ∨
  (∃ e, load_artifacts store = (None, [StError "Erro ao carregar arquivos: " e])).
Proof.
  unfold load_artifacts.
  destruct (modelo_obesidade_pkl store); [ | right; by eexists ].
  destruct (label_encoder_pkl store); [ | right; by eexists ].
  destruct (expected_columns_pkl store); [ | right; by eexists ].
  destruct (categories_pkl store); [ left | right ]; by eexists.
Qed.

Lemma render_form_Ok (categories : gmap string (list string)) (form : event) :
  render_form categories = Ok form →
  ∃ caec_options calc_options,
    categories !! "CAEC" = Some caec_options ∧
    categories !! "CALC" = Some calc_options ∧
    form = StForm caec_options calc_options.
Proof.
  unfold render_form, patient_form.
  destruct (categories !! "CAEC") as [ a | ]; [ | intros [=] ].
  destruct (categories !! "CALC") as [ b | ]; [ | intros [=] ].
  intros [= <-]. by exists a, b.
Qed.

Lemma render_form_Raise (categories : gmap string (list string)) (e : exn) :
  render_form categories = Raise e →
  e = KeyError [ "CAEC" ] ∨ e = KeyError [ "CALC" ].
Proof.
  unfold render_form, patient_form.
  destruct (categories !! "CAEC") as [ a | ]; [ | intros [= <-]; by left ].
  destruct (categories !! "CALC") as [ b | ]; [ intros [=] | intros [= <-]; by right ].
Qed.

(** A run in which the form was not submitted calls neither the model nor
    the encoder, shows no processing error and offers no download, whether
    it loads the artifacts itself or finds them cached.  The failures it can
    show are the load error and the [KeyError] of a vocabulary key, CAEC or
    CALC, that no handler catches; it shows at most one of them. *)
Theorem unsubmitted_run_is_passive
    (store : ArtifactStore) (cache : Cache) (ix : Interaction) :
  submitted ix = false →
  cache = None ∨ (∃ store', cache = Some (load_artifacts store')) →
  count_events is_model_call (run_script store cache ix).1 = 0%nat ∧
  count_events is_download (run_script store cache ix).1 = 0%nat ∧
  Forall (λ ev,
            (is_error ev = true →
               ∃ e, ev = StError "Erro ao carregar arquivos: " e) ∧
            (is_uncaught ev = true →
               ev = Uncaught (KeyError [ "CAEC" ]) ∨
               ev = Uncaught (KeyError [ "CALC" ])))
         (run_script store cache ix).1 ∧
  (count_events is_error (run_script store cache ix).1
     + count_events is_uncaught (run_script store cache ix).1 ≤ 1)%nat.
Proof.
  intros Hsub Hcache.
  assert (Hload : ∃ s, cached_load_artifacts store cache =
                       (load_artifacts s, Some (load_artifacts s))).
  { destruct Hcache as [ -> | (s & ->) ]; [ by exists store | by exists s ]. }
  destruct Hload as (s & Hload).
  unfold run_script. rewrite Hload.
  destruct (load_artifacts_cases s) as [ ([[[m le] ec] cat] & ->) | (e & ->) ].
  - destruct (render_form cat) as [ form | e ] eqn:Hform.
    + apply render_form_Ok in Hform as (a & b & _ & _ & ->).
      rewrite Hsub. cbn. split; [ done | ]. split; [ done | ].
      split; [ | lia ].
      repeat (apply Forall_cons; split; [ split; by intros [=] | ]).
      constructor.
    + apply render_form_Raise in Hform as [ -> | -> ].
      all: cbn; split; [ done | ]; split; [ done | ].
      all: split; [ | lia ].
      all: repeat (apply Forall_cons; split; [ split; try (by intros [=]) | ]);
             try (by constructor).
  - cbn. split; [ done | ]. split; [ done | ].
    split; [ | lia ].
    repeat (apply Forall_cons; split; [ split; try (by intros [=]) | ]);
      try (by constructor).
    all: intros _; by eexists.
Qed.

Lemma unsubmitted_run_is_passive_witness :
  count_events is_model_call
    (run_script sample_store None
       {| widgets := default_inputs; submitted := false |}).1 = 0%nat.
Proof.
  refine (proj1 (unsubmitted_run_is_passive sample_store None
            {| widgets := default_inputs; submitted := false |} eq_refl
            (or_introl eq_refl))).
Defined.

(** The files are read at most once: a run that finds the cache filled does
    not depend on the store, and after the first run of a session the later
    ones see what that run loaded, whatever the files have become. *)
Theorem cache_shields_store
    (store store' : ArtifactStore) (kept : option Artifacts * list event)
    (ix : Interaction) (ixs : list Interaction) :
  run_script store (Some kept) ix = run_script store' (Some kept) ix ∧
  run_session store (Some kept) ixs = run_session store' (Some kept) ixs ∧
  run_session store None (ix :: ixs) =
    (run_script store None ix).1
      :: run_session store' (Some (load_artifacts store)) ixs.
Proof.
  assert (Hrun : ∀ k i, run_script store (Some k) i = run_script store' (Some k) i)
    by done.
  assert (Hses : ∀ k, run_session store (Some k) ixs = run_session store' (Some k) ixs).
  { induction ixs as [ | i rest IH ]; intros k; [ done | ].
    cbn [run_session]. rewrite (Hrun k i).
    pose proof (run_script_keeps_cache store' k i) as Hk.
    destruct (run_script store' (Some k) i) as [shown cache']. cbn in Hk. subst cache'.
    by rewrite IH. }
  split; [ apply Hrun | ]. split; [ apply Hses | ].
  cbn [run_session].
  assert (Hc : (run_script store None ix).2 = Some (load_artifacts store)).
  { unfold run_script, cached_load_artifacts.
    destruct (load_artifacts store) as [ [ [[[m le] ec] cat] | ] shown ]; [ | done ].
    by destruct (render_form cat). }
  destruct (run_script store None ix) as [shown cache']. cbn in Hc. subst cache'.
  cbn [fst]. by rewrite Hses.
Qed.

Lemma patient_form_Raise (categories : gmap string (list string)) :
  categories !! "CAEC" = None ∨ categories !! "CALC" = None →
  ∃ key rendered,
    categories !! key = None ∧
    patient_form categories = (rendered, Raise (KeyError [ key ])) ∧
    (key = "CAEC" ∧ length rendered = 8%nat ∧
     last rendered = Some (Slider "Número de refeições principais (1-4)")
     ∨
     key = "CALC" ∧ length rendered = 14%nat ∧
     last rendered = Some (Slider "Tempo usando dispositivos eletrônicos (0-2)") ∧
     ∃ caec_options,
       categories !! "CAEC" = Some caec_options ∧
       SelectBox "Consumo de alimentos entre refeições" caec_options ∈ rendered).
Proof.
  intros Hkey. unfold patient_form.
  destruct (categories !! "CAEC") as [ caec_options | ] eqn:Hcaec.
  - destruct Hkey as [ Hk | Hk ]; [ discriminate Hk | ].
    exists "CALC". eexists. rewrite Hk. split; [ done | ]. split; [ reflexivity | ].
    right. split; [ done | ]. split; [ done | ]. split; [ done | ].
    exists caec_options. split; [ reflexivity | ].
    cbn. repeat first [ apply list_elem_of_here | apply list_elem_of_further ].
  - exists "CAEC". eexists. split; [ done | ]. split; [ reflexivity | ].
    left. by repeat split.
Qed.

(** When the four files load but the vocabularies lack the key CAEC or the
    key CALC, every run, submitted or not, ends inside the form in a
    [KeyError] for that key that no handler catches.  The form is left
    unfinished: it holds the 8 controls created before the CAEC select box,
    or the 14 created before the CALC one, and no submit button.  The page
    ends there, and nothing is predicted. *)
Theorem missing_vocabulary_key
    (store : ArtifactStore) (model : Model) (label_encoder : LabelEncoder)
    (expected_columns : list string) (categories : gmap string (list string)) :
  modelo_obesidade_pkl store = Ok model →
  label_encoder_pkl store = Ok label_encoder →
  expected_columns_pkl store = Ok expected_columns →
  categories_pkl store = Ok categories →
  categories !! "CAEC" = None ∨ categories !! "CALC" = None →
  ∃ key rendered,
    categories !! key = None ∧
    patient_form categories = (rendered, Raise (KeyError [ key ])) ∧
    (key = "CAEC" ∧ length rendered = 8%nat ∧
     last rendered = Some (Slider "Número de refeições principais (1-4)")
     ∨
     key = "CALC" ∧ length rendered = 14%nat ∧
     last rendered = Some (Slider "Tempo usando dispositivos eletrônicos (0-2)") ∧
     ∃ caec_options,
       categories !! "CAEC" = Some caec_options ∧
       SelectBox "Consumo de alimentos entre refeições" caec_options ∈ rendered) ∧
    ∀ ixs,
      Forall (λ shown,
                shown = page_head
                          ++ [ StText SidebarHeader "📊 Informações do Paciente";
                               StFormInterrupted rendered;
                               Uncaught (KeyError [ key ]) ] ∧
                count_events is_form shown = 0%nat ∧
                count_events is_model_call shown = 0%nat ∧
                count_events is_error shown = 0%nat ∧
                last shown = Some (Uncaught (KeyError [ key ])))
             (run_session store None ixs).
Proof.
  intros H1 H2 H3 H4 Hkey.
  pose proof (load_artifacts_succeeds store _ _ _ _ H1 H2 H3 H4) as Hload.
  destruct (patient_form_Raise categories Hkey) as (key & rendered & Hnone & Hform & Hshape).
  exists key, rendered. split; [ exact Hnone | ]. split; [ exact Hform | ].
  split; [ exact Hshape | ].
  intros ixs.
  assert (Hrender : render_form categories = Raise (KeyError [ key ]))
    by (unfold render_form; by rewrite Hform).
  assert (Hall : ∀ cache, cache = None ∨ cache = Some (load_artifacts store) →
            Forall (λ shown,
                      shown = page_head
                                ++ [ StText SidebarHeader "📊 Informações do Paciente";
                                     StFormInterrupted rendered;
                                     Uncaught (KeyError [ key ]) ])
                   (run_session store cache ixs)).
  { induction ixs as [ | ix ixs IH ]; intros cache Hcache; [ constructor | ].
    cbn [run_session]. unfold run_script, cached_load_artifacts.
    destruct Hcache as [ -> | -> ]; rewrite Hload, Hrender, Hform;
      (constructor; [ reflexivity | apply IH; right; by rewrite Hload ]). }
  eapply Forall_impl; [ apply Hall; by left | ].
  intros shown ->. by cbn.
Qed.

Lemma missing_vocabulary_key_witness :
  Forall (λ shown, count_events is_model_call shown = 0%nat ∧
                   last shown = Some (Uncaught (KeyError [ "CAEC" ])))
         (run_session
            {| modelo_obesidade_pkl := Ok sample_model;
               label_encoder_pkl := Ok sample_encoder;
               expected_columns_pkl := Ok field_names;
               categories_pkl := Ok ∅ |}
            None
            [ {| widgets := default_inputs; submitted := true |} ]).
Proof.
  assert (Hkey : (∅ : gmap string (list string)) !! "CAEC" = None ∨
                 (∅ : gmap string (list string)) !! "CALC" = None)
    by (left; apply lookup_empty).
  destruct (missing_vocabulary_key
              {| modelo_obesidade_pkl := Ok sample_model;
                 label_encoder_pkl := Ok sample_encoder;
                 expected_columns_pkl := Ok field_names;
                 categories_pkl := Ok ∅ |}
              sample_model sample_encoder field_names ∅
              eq_refl eq_refl eq_refl eq_refl Hkey)
    as (key & rendered & _ & Hform & _ & Hruns).
  assert (Hk : key = "CAEC") by (vm_compute in Hform; by injection Hform).
  subst key.
  eapply Forall_impl; [ apply Hruns | ]. by intros shown (_ & _ & H & _ & Hl).
Defined.

(** When the four files load and the vocabularies have both keys, every run
    shows the form with the stored option lists for CAEC and CALC, runs the
    prediction cycle exactly when the form was submitted, and reaches the
    foot of the page: it neither stops nor ends in an uncaught exception. *)
Theorem loaded_run_shows_form
    (store : ArtifactStore) (model : Model) (label_encoder : LabelEncoder)
    (expected_columns : list string) (categories : gmap string (list string))
    (caec_options calc_options : list string) (cache : Cache) (ix : Interaction) :
  modelo_obesidade_pkl store = Ok model →
  label_encoder_pkl store = Ok label_encoder →
  expected_columns_pkl store = Ok expected_columns →
  categories_pkl store = Ok categories →
  categories !! "CAEC" = Some caec_options →
  categories !! "CALC" = Some calc_options →
  cache = None ∨ cache = Some (load_artifacts store) →
  run_script store cache ix =
    (page_head
       ++ [ StText SidebarHeader "📊 Informações do Paciente";
            StForm caec_options calc_options ]
       ++ (if submitted ix
           then on_submit model label_encoder expected_columns (widgets ix)
           else [])
       ++ page_foot,
     Some (load_artifacts store)).
Proof.
  intros H1 H2 H3 H4 Hcaec Hcalc Hcache.
  pose proof (load_artifacts_succeeds store _ _ _ _ H1 H2 H3 H4) as Hload.
  unfold run_script, cached_load_artifacts.
  destruct Hcache as [ -> | -> ]; rewrite Hload;
    unfold render_form, patient_form; by rewrite Hcaec, Hcalc.
Qed.

Lemma loaded_run_shows_form_witness :
  count_events is_form
    (run_script sample_store None
       {| widgets := default_inputs; submitted := true |}).1 = 1%nat.
Proof.
  rewrite (loaded_run_shows_form sample_store sample_model sample_encoder field_names
             sample_categories
             [ "Always"; "Frequently"; "Sometimes"; "no" ]
             [ "Always"; "Frequently"; "Sometimes"; "no" ]
             None {| widgets := default_inputs; submitted := true |}
             eq_refl eq_refl eq_refl eq_refl
             ltac:(by vm_compute) ltac:(by vm_compute) (or_introl eq_refl)).
  by vm_compute.
Defined.

(** A failed selection is a [KeyError] that names the requested labels the
    frame lacks, all of them and only them. *)
Theorem select_columns_key_error (df : DataFrame) (cols : list string) (e : exn) :
  select_columns df cols = Raise e →
  ∃ not_found,
    e = KeyError not_found ∧ not_found ≠ [] ∧
    ∀ c, c ∈ not_found ↔ c ∈ cols ∧ c ∉ columns df.
Proof.
  intros [ (-> & Hne & Hall) | (-> & Hne & _) ]%select_columns_Raise.
  - exists cols. split; [ done | ]. split; [ done | ].
    rewrite Forall_forall in Hall.
    intros c. split; [ intros Hc; split; [ done | by apply Hall ] | by intros [? _] ].
  - exists (unique (filter (λ c, c ∉ columns df) cols)). split; [ done | ]. split.
    + intros Hu. destruct (filter _ cols) as [ | c nf ] eqn:E; [ done | ].
      assert (Hc : c ∈ unique (c :: nf)) by (apply elem_of_unique; left).
      rewrite Hu in Hc. by apply elem_of_nil in Hc.
    + intros c. rewrite elem_of_unique, list_elem_of_filter. tauto.
Qed.

Lemma select_columns_key_error_witness :
  ∃ not_found,
    KeyError [ "BMI"; "Waist" ] = KeyError not_found ∧
    ∀ c, c ∈ not_found ↔
         c ∈ [ "BMI"; "Age"; "Waist" ] ∧ c ∉ columns (patient_record default_inputs).
Proof.
  destruct (select_columns_key_error (patient_record default_inputs)
              [ "BMI"; "Age"; "Waist" ] (KeyError [ "BMI"; "Waist" ])
              ltac:(by vm_compute))
    as (nf & Heq & _ & Hnf).
  exists nf. by split.
Defined.
